(** * Snapshot Debugger CLI: the [set_snapshot] command and the CLI start-up

    A shallow embedding of [cli/src/set_snapshot_command.py] and
    [cli/src/cli.py].  Python dictionaries are finite maps from strings to
    JSON-like values, the remote store is a finite map from paths to values,
    and the effects of a command (store calls, user output, exceptions) are
    threaded through an explicit state-and-exception monad. *)

From stdpp Require Import gmap strings list fin_maps pretty.
From Stdlib Require Import ZArith Ascii String.

Local Open Scope Z_scope.
Local Open Scope string_scope.
Local Open Scope list_scope.

(** ** Values *)

(** The JSON-like values the CLI passes to and receives from the store. *)
#[warnings="-register-all"]
Inductive value : Type :=
  | VNone
  | VBool (b : bool)
  | VInt (z : Z)
  | VStr (s : string)
  | VList (l : list value)
  | VDict (d : gmap string value).

Abbreviation dict := (gmap string value).

(** [{'.sv': 'timestamp'}], the store's server-value for "time of the write
    in milliseconds since the epoch" (set_snapshot_command.py, line 108). *)
Definition SERVER_TIMESTAMP : value := VDict {[ ".sv" := VStr "timestamp" ]}.

Definition is_server_timestamp (v : value) : bool :=
  match v with
  | VDict d =>
      bool_decide (size d = 1%nat) &&
      match d !! ".sv" with
      | Some (VStr s) => String.eqb s "timestamp"
      | _ => false
      end
  | _ => false
  end.

(** The structured location returned by the location parser. *)
Record SourceLocation : Type := mkLocation { path : string; line : Z }.

Definition location_value (l : SourceLocation) : value :=
  VDict {[ "path" := VStr (path l); "line" := VInt (line l) ]}.

(** ** The world a command runs in *)

(** Calls received by the remote store, in the order they were made. *)
Inductive store_call : Type :=
  | CallGet (p : string)
  | CallSet (p : string) (data : value)
  | CallSetIf (p : string) (expected new : value).

(** What the operator sees. *)
Inductive out_event : Type :=
  | OutStderr (msg : string)
  | OutError (msg : string)
  | OutNormal (msg : string)
  | OutJson (bp : value) (pretty : bool).

Record world : Type := World {
  store : gmap string value;     (* contents of the remote store *)
  server_time : Z;               (* the store's clock, in ms *)
  outages : list bool;           (* injected faults: one entry per upcoming call *)
  calls : list store_call;       (* calls made to the store so far *)
  output : list out_event;       (* messages shown so far *)
}.

Inductive exn : Type :=
  | SilentlyExitError
  | SystemExit (code : Z).

Inductive result (A : Type) : Type :=
  | Ret (a : A)
  | Raise (e : exn).
Arguments Ret {A} a.
Arguments Raise {A} e.

(** Computations that read and change the world and may raise. *)
Definition M (A : Type) : Type := world → result A * world.

Global Instance M_ret : MRet M := λ A a w, (Ret a, w).
Global Instance M_bind : MBind M := λ A B f m w,
  match m w with
  | (Ret a, w') => f a w'
  | (Raise e, w') => (Raise e, w')
  end.

Definition raise {A} (e : exn) : M A := λ w, (Raise e, w).

Definition emit (e : out_event) : M unit := λ w,
  (Ret tt, World (store w) (server_time w) (outages w) (calls w) (output w ++ [e])).

Definition record_call (c : store_call) : M unit := λ w,
  (Ret tt, World (store w) (server_time w) (outages w) (calls w ++ [c]) (output w)).

(** ** User output (the [user_output] object and [sys.stderr]) *)

Definition print_stderr (msg : string) : M unit := emit (OutStderr msg).
Definition user_output_error (msg : string) : M unit := emit (OutError msg).
Definition user_output_normal (msg : string) : M unit := emit (OutNormal msg).
Definition print_json (bp : value) (pretty : bool) : M unit := emit (OutJson bp pretty).

(** [argparse.ArgumentParser.error]: prints the message to stderr and exits
    the process with status 2. *)
Definition args_parser_error {A} (msg : string) : M A :=
  print_stderr msg ;; raise (SystemExit 2).

(** ** The remote breakpoint store client *)

(** Modelled from the spec: the server-side handling of the "server
    timestamp" write value (section 6); the store service is not part of
    the sources.  A written mapping has each field holding the sentinel
    replaced by the time of the write. *)
Definition resolve_fields (now : Z) (d : dict) : dict :=
  (λ x, if is_server_timestamp x then VInt now else x) <$> d.

Definition resolve_server_values (now : Z) (v : value) : value :=
  match v with
  | VDict d => VDict (resolve_fields now d)
  | _ => v
  end.

Module FirebaseRtdbService.

(** Consumes the next injected fault; [true] when the store answers. *)
Definition reachable : M bool := λ w,
  match outages w with
  | [] => (Ret true, w)
  | down :: rest =>
      (Ret (negb down), World (store w) (server_time w) rest (calls w) (output w))
  end.

Definition lookup_store (p : string) : M (option value) := λ w,
  (Ret (store w !! p), w).

Definition commit (p : string) (data : value) : M value := λ w,
  let v := resolve_server_values (server_time w) data in
  (Ret v, World (<[p := v]> (store w)) (server_time w) (outages w) (calls w) (output w)).

(** Modelled from the spec: [get(path) -> value|nil] of the store service
    (section 6), which is not part of the sources.  The outer [None] is
    an unreachable store. *)
Definition get (p : string) : M (option (option value)) :=
  record_call (CallGet p) ;;
  up ← reachable;
  if up : bool then v ← lookup_store p; mret (Some v) else mret None.

(** Modelled from the spec: [set(path, value)], an unconditional overwrite
    (section 6), of the store service, which is not part of the sources.
    Returns the record as committed, or [None] when the store is
    unreachable. *)
Definition set (p : string) (data : value) : M (option value) :=
  record_call (CallSet p data) ;;
  up ← reachable;
  if up : bool then v ← commit p data; mret (Some v) else mret None.

Definition counter_matches (current : option value) (expected : Z) : bool :=
  match current with
  | None => true
  | Some (VInt c) => (c =? expected)%Z
  | Some _ => false
  end.

Definition commit_if (p : string) (expected new : Z) : M bool := λ w,
  if counter_matches (store w !! p) expected
  then (Ret true,
        World (<[p := VInt new]> (store w)) (server_time w) (outages w) (calls w) (output w))
  else (Ret false, w).

(** Modelled from the spec: [set_if_absent_or_matches(path, expected, new)
    -> bool], the conditional write of the store service (section 6), which
    is not part of the sources; used on integer counters only.  [None] is an
    unreachable store. *)
Definition set_if_absent_or_matches (p : string) (expected new : Z) : M (option bool) :=
  record_call (CallSetIf p (VInt expected) (VInt new)) ;;
  up ← reachable;
  if up : bool then won ← commit_if p expected new; mret (Some won) else mret None.

End FirebaseRtdbService.

(** ** Collaborators that are not part of the sources *)

(** The functions of [breakpoint_utils] used by the command. *)
Class BreakpointUtils : Type := {
  LOCATION_ERROR_MSG : string;
  parse_and_validate_location : string → option SourceLocation;
  get_new_breakpoint_id : string → M (option string);
  normalize_breakpoint : option value → option value;
}.

(** The function of [command_utils] used by the command. *)
Class CommandUtils : Type := {
  validate_debuggee_id : string → M unit;
}.

(** ** Command line arguments and services *)

Inductive command : Type :=
  | delete_snapshots
  | get_snapshot
  | init
  | list_snapshots
  | list_debuggees
  | set_snapshot.

(** The [argparse.Namespace] produced by [parse_args].  [func] is bound only
    when a subcommand was selected; [condition] and [expression] are [None]
    when the flag was not given. *)
Record Namespace : Type := {
  func : option command;
  debuggee_id : string;
  location : string;
  condition : option string;
  expression : option (list string);
  format : string;
}.

Record CliServices : Type := {
  account : string;
}.

(** The rest of the start-up code's collaborators: the constructor of
    [CliServices] and the five commands whose modules are not part of the
    sources. *)
Class CliEnvironment : Type := {
  new_CliServices : Namespace → M CliServices;
  other_cmd : command → Namespace → CliServices → M unit;
}.

(** ** set_snapshot_command.py *)

Definition CREATE_SUCCESS_MESSAGE (breakpoint_id : string) : string :=
  "Successfully created snapshot with id: " +:+ breakpoint_id.

Definition CREATE_FAILED_MESSAGE : string :=
  "An unexpected error occurred while trying to set the  snapshot.".

(** Python truthiness of an optional string / optional list argument. *)
Definition truthy_str (o : option string) : bool :=
  match o with
  | Some s => negb (String.eqb s "")
  | None => false
  end.

Definition truthy_list {A} (o : option (list A)) : bool :=
  match o with
  | Some (_ :: _) => true
  | _ => false
  end.

(** Lines 103-114: the record built before an id is allocated. *)
Definition snapshot_data (args : Namespace) (cli_services : CliServices)
    (loc : SourceLocation) : dict :=
  let d : dict :=
    {[ "location" := location_value loc; "userEmail" := VStr (account cli_services) ]} in
  let d := <["createTimeUnixMsec" := SERVER_TIMESTAMP]> d in
  let d := if truthy_str (condition args)
           then <["condition" := VStr (default "" (condition args))]> d else d in
  let d := if truthy_list (expression args)
           then <["expressions" := VList (VStr <$> default [] (expression args))]> d else d in
  d.

Definition active_path (debuggee breakpoint_id : string) : string :=
  "breakpoints/" +:+ debuggee +:+ "/active/" +:+ breakpoint_id.

Section SetSnapshotCommand.
Context `{!BreakpointUtils, !CommandUtils}.

(** [SetSnapshotCommand.cmd].  [user_output] and the store service obtained
    from [cli_services] (lines 92-93) are the output log and the store of
    the world; the [return] after the parser's error (line 101) is never
    reached, since the error exits the process. *)
Definition cmd (args : Namespace) (cli_services : CliServices) : M unit :=
  validate_debuggee_id (debuggee_id args) ;;
  match parse_and_validate_location (location args) with
  | None => args_parser_error LOCATION_ERROR_MSG
  | Some loc =>
      let data := snapshot_data args cli_services loc in
      breakpoint_id ← get_new_breakpoint_id (debuggee_id args);
      match breakpoint_id with
      | None => mret tt
      | Some breakpoint_id =>
          let data := <["id" := VStr breakpoint_id]> data in
          let p := active_path (debuggee_id args) breakpoint_id in
          bp ← FirebaseRtdbService.set p (VDict data);
          match normalize_breakpoint bp with
          | None =>
              user_output_error CREATE_FAILED_MESSAGE ;;
              raise SilentlyExitError
          | Some bp =>
              if bool_decide (format args = "json") || bool_decide (format args = "pretty-json")
              then print_json bp (bool_decide (format args = "pretty-json"))
              else user_output_normal (CREATE_SUCCESS_MESSAGE breakpoint_id)
          end
      end
  end.
End SetSnapshotCommand.

(** ** cli.py *)

Definition MISSING_ARGUMENT_MESSAGE : string :=
  "Missing required argument, please specify --help for more information".

Section Cli.
Context `{!BreakpointUtils, !CommandUtils, !CliEnvironment}.

(** The function bound to [func] by each command's [register]. *)
Definition command_func (c : command) : Namespace → CliServices → M unit :=
  match c with
  | set_snapshot => cmd
  | _ => other_cmd c
  end.

(** [main], from the parsed arguments on. *)
Definition main (args : Namespace) : M unit :=
  match func args with
  | None =>
      print_stderr MISSING_ARGUMENT_MESSAGE ;;
      raise SilentlyExitError
  | Some c =>
      cli_services ← new_CliServices args;
      command_func c args cli_services
  end.

(** The exit status of the process: the [__main__] block turns
    [SilentlyExitError] into [sys.exit(1)], [SystemExit] carries its own
    status, and a normal return exits with 0. *)
Definition exit_status (r : result unit) : Z :=
  match r with
  | Ret _ => 0
  | Raise SilentlyExitError => 1
  | Raise (SystemExit code) => code
  end.

Definition run (args : Namespace) (w : world) : Z * world :=
  let '(r, w') := main args w in (exit_status r, w').
End Cli.

(** ** The location parser of [breakpoint_utils] *)

Module LocationParser.

Definition COLON : ascii := ":"%char.

Fixpoint contains_colon (s : string) : bool :=
  match s with
  | EmptyString => false
  | String c rest => Ascii.eqb c COLON || contains_colon rest
  end.

(** Splits at the last colon: [rsplit_colon "a:b:c" = Some ("a:b", "c")]. *)
Fixpoint rsplit_colon (s : string) : option (string * string) :=
  match s with
  | EmptyString => None
  | String c rest =>
      match rsplit_colon rest with
      | Some (p, q) => Some (String c p, q)
      | None => if Ascii.eqb c COLON then Some (EmptyString, rest) else None
      end
  end.

Definition digit_value (c : ascii) : option Z :=
  let n := Z.of_N (N_of_ascii c) in
  if ((48 <=? n) && (n <=? 57))%Z then Some (n - 48) else None.

Fixpoint parse_digits (acc : Z) (s : string) : option Z :=
  match s with
  | EmptyString => Some acc
  | String c rest =>
      match digit_value c with
      | Some d => parse_digits (10 * acc + d) rest
      | None => None
      end
  end.

(** A non-empty run of decimal digits, read as an integer. *)
Definition parse_int (s : string) : option Z :=
  match s with
  | EmptyString => None
  | _ => parse_digits 0 s
  end.

(** Modelled from the spec: [breakpoint_utils.parse_and_validate_location],
    which is not part of the sources (section 4.1): the input is split on
    the last colon, the prefix must be non-empty and the suffix must parse
    as a positive integer; anything else is the invalid result [None]. *)
Definition parse_and_validate_location (s : string) : option SourceLocation :=
  match rsplit_colon s with
  | None => None
  | Some (p, l) =>
      if String.eqb p "" then None
      else match parse_int l with
           | Some n => if (0 <? n)%Z then Some (mkLocation p n) else None
           | None => None
           end
  end.

End LocationParser.

(** ** The breakpoint normalizer of [breakpoint_utils] *)

Module Normalizer.

Inductive namespace : Type := Active | Final.

Inductive normalized : Type :=
  | NotFound
  | Malformed
  | Canonical (bp : dict).

Definition is_final (ns : namespace) : bool :=
  match ns with
  | Final => true
  | Active => false
  end.

(** A field that is absent, or present with a null value. *)
Definition missing (d : dict) (k : string) : bool :=
  match d !! k with
  | None | Some VNone => true
  | Some _ => false
  end.

Definition default_field (k : string) (v : value) (d : dict) : dict :=
  if missing d k then <[k := v]> d else d.

(** Modelled from the spec: [breakpoint_utils.normalize_breakpoint], which
    is not part of the sources (section 4.3).  A missing input is "not
    found"; a record without a string [id] is "malformed"; otherwise the
    canonical record has every server-value sentinel resolved to the time
    the record was committed, the optional fields [condition] and
    [expressions] defaulted to the empty string and the empty sequence, and
    [isFinalState] set from the namespace the record was read from. *)
Definition normalize_breakpoint (ns : namespace) (commit_time : Z)
    (raw : option dict) : normalized :=
  match raw with
  | None => NotFound
  | Some d =>
      match d !! "id" with
      | Some (VStr _) =>
          Canonical
            (<["isFinalState" := VBool (is_final ns)]>
               (default_field "expressions" (VList [])
                  (default_field "condition" (VStr "")
                     (resolve_fields commit_time d))))
      | _ => Malformed
      end
  end.

(** A raw record the normalizer accepts. *)
Definition well_formed (d : dict) : Prop := ∃ i, d !! "id" = Some (VStr i).

(** The one-argument form the command calls: the record just written to
    the active namespace, [None] when there is no canonical record. *)
Definition normalize_written (bp : option value) : option value :=
  match bp with
  | Some (VDict d) =>
      match normalize_breakpoint Active 0 (Some d) with
      | Canonical c => Some (VDict c)
      | _ => None
      end
  | _ => None
  end.

End Normalizer.

(** ** Debuggee validation of [command_utils] *)

Module CommandUtilsModel.

Definition debuggee_path (debuggee : string) : string := "debuggees/" +:+ debuggee.

Definition DEBUGGEE_NOT_FOUND_MESSAGE (debuggee : string) : string :=
  "Debuggee not found: " +:+ debuggee.

(** Modelled from the spec: [command_utils.validate_debuggee_id], which is
    not part of the sources (section 4.5): the handler checks through a
    store lookup that the debuggee exists, and a missing debuggee is a
    user-facing failure.  The path of the debuggee registry is not given by
    the spec; the model keeps it at [debuggees/{debuggeeId}]. *)
Definition validate_debuggee_id (debuggee : string) : M unit :=
  found ← FirebaseRtdbService.get (debuggee_path debuggee);
  match found with
  | Some (Some _) => mret tt
  | _ =>
      user_output_error (DEBUGGEE_NOT_FOUND_MESSAGE debuggee) ;;
      raise SilentlyExitError
  end.

End CommandUtilsModel.

(** ** The breakpoint id allocator of [breakpoint_utils] *)

Module Allocator.

Definition MAX_ATTEMPTS : nat := 5.

Definition ALLOCATION_FAILED_MESSAGE : string :=
  "Failed to allocate a new breakpoint id.".

Definition counter_path (debuggee : string) : string := "id_counters/" +:+ debuggee.

Definition make_id (prefix : string) (sequence : Z) : string :=
  prefix +:+ pretty sequence.

Definition counter_value (v : option value) : Z :=
  match v with
  | Some (VInt c) => c
  | _ => 0
  end.

(** Modelled from the spec: [breakpoint_utils.get_new_breakpoint_id], which
    is not part of the sources (section 4.2).  Each attempt reads the
    debuggee's counter, proposes [prefix + next_sequence] and claims it
    with a conditional write; a lost race or an unreachable store uses up
    the attempt; when no attempt is left the failure is reported to the
    user and [None] is returned. *)
Fixpoint allocate (prefix : string) (attempts : nat) (debuggee : string)
    : M (option string) :=
  match attempts with
  | O => user_output_error ALLOCATION_FAILED_MESSAGE ;; mret None
  | S attempts' =>
      seen ← FirebaseRtdbService.get (counter_path debuggee);
      match seen with
      | None => allocate prefix attempts' debuggee
      | Some v =>
          let current := counter_value v in
          won ← FirebaseRtdbService.set_if_absent_or_matches
                  (counter_path debuggee) current (current + 1);
          match won with
          | Some true => mret (Some (make_id prefix (current + 1)))
          | _ => allocate prefix attempts' debuggee
          end
      end
  end.

Definition get_new_breakpoint_id (debuggee : string) : M (option string) :=
  allocate "b-" MAX_ATTEMPTS debuggee.

(** *** Allocators racing on one debuggee

    The protocol of [allocate], cut at its store calls: every allocator is
    between two store calls, and a schedule picks whose next call the
    shared store serves.  The calls are the store client's own, made on
    the one world all allocators share; the injected faults of that world
    decide which calls find the store unreachable. *)

Inductive allocator : Type :=
  | Reading (attempts : nat)              (* about to read the counter *)
  | Claiming (attempts : nat) (seen : Z)  (* about to write [seen + 1] if still [seen] *)
  | Returned (id : string)
  | Failed.

(** Modelled from the spec: the next store call of
    [breakpoint_utils.get_new_breakpoint_id], which is not part of the
    sources (section 4.2), and what the allocator does with its answer.
    With [attempts] left it reads the counter; having read [seen] it
    claims [seen + 1] with the conditional write and returns
    [prefix + (seen + 1)] when the write is won; a lost race or an
    unreachable store uses up the attempt; with no attempt left it reports
    the failure.  [allocate] is this step repeated (see
    [AllocatorFacts.run_alone_allocate]). *)
Definition allocator_step (prefix debuggee : string) (a : allocator) : M allocator :=
  match a with
  | Reading O => user_output_error ALLOCATION_FAILED_MESSAGE ;; mret Failed
  | Reading (S attempts') =>
      seen ← FirebaseRtdbService.get (counter_path debuggee);
      mret (match seen with
            | None => Reading attempts'
            | Some v => Claiming attempts' (counter_value v)
            end)
  | Claiming attempts' current =>
      won ← FirebaseRtdbService.set_if_absent_or_matches
              (counter_path debuggee) current (current + 1);
      mret (match won with
            | Some true => Returned (make_id prefix (current + 1))
            | _ => Reading attempts'
            end)
  | Returned _ | Failed => mret a
  end.

(** One allocator run to its end with nobody in between. *)
Fixpoint run_alone (prefix debuggee : string) (fuel : nat) (a : allocator)
    : M (option string) :=
  match a with
  | Returned id => mret (Some id)
  | Failed => mret None
  | _ =>
      match fuel with
      | O => mret None
      | S fuel' =>
          a' ← allocator_step prefix debuggee a;
          run_alone prefix debuggee fuel' a'
      end
  end.

(** The store serves the next call of allocator [who]. *)
Definition race_step (prefix debuggee : string) (s : world * list allocator)
    (who : nat) : world * list allocator :=
  match s.2 !! who with
  | None => s
  | Some a =>
      match allocator_step prefix debuggee a s.1 with
      | (Ret a', w') => (w', <[who := a']> s.2)
      | (Raise _, w') => (w', s.2)
      end
  end.

(** [n] allocators started together on the world [w]. *)
Definition race (prefix debuggee : string) (n : nat) (schedule : list nat)
    (w : world) : world * list allocator :=
  foldl (race_step prefix debuggee) (w, replicate n (Reading MAX_ATTEMPTS)) schedule.

(** Modelled from the spec: the path of a completed breakpoint,
    [breakpoints/{debuggeeId}/final/{breakpointId}] (section 6); no code
    under the sources builds it. *)
Definition final_path (debuggee breakpoint_id : string) : string :=
  "breakpoints/" +:+ debuggee +:+ "/final/" +:+ breakpoint_id.

(** Every breakpoint the store holds for the debuggee, active or final,
    carries an id the counter has issued. *)
Definition issued_by_counter (prefix debuggee : string) (w : world) : Prop :=
  ∀ id,
    is_Some (store w !! active_path debuggee id) ∨
    is_Some (store w !! final_path debuggee id) →
    ∃ n, id = make_id prefix n ∧
         (n ≤ counter_value (store w !! counter_path debuggee))%Z.

(** What holds of a race that started in the world [w0]: each id handed out
    is [prefix + n] for a sequence number [n] above the counter of [w0] and
    not above the current counter, no two allocators hold the same one, no
    allocator is about to claim a sequence number at or below the counter
    of [w0], and only the counter has changed in the store. *)
Definition ids_consistent (prefix debuggee : string) (w0 : world)
    (s : world * list allocator) : Prop :=
  let base := counter_value (store w0 !! counter_path debuggee) in
  (∀ i id, s.2 !! i = Some (Returned id) →
     ∃ n m, id = make_id prefix n ∧
            store s.1 !! counter_path debuggee = Some (VInt m) ∧ (base < n ≤ m)%Z) ∧
  (∀ i j id, i ≠ j → s.2 !! i = Some (Returned id) → s.2 !! j ≠ Some (Returned id)) ∧
  (∀ i k seen, s.2 !! i = Some (Claiming k seen) → (base ≤ seen)%Z) ∧
  (base ≤ counter_value (store s.1 !! counter_path debuggee))%Z ∧
  (∀ q, q ≠ counter_path debuggee → store s.1 !! q = store w0 !! q).

End Allocator.

(** ** The collaborators as the spec describes them *)

Definition LOCATION_ERROR_MSG_MODEL : string :=
  "Location must be in the format file:line".

Definition modelled_breakpoint_utils : BreakpointUtils := {|
  LOCATION_ERROR_MSG := LOCATION_ERROR_MSG_MODEL;
  parse_and_validate_location := LocationParser.parse_and_validate_location;
  get_new_breakpoint_id := Allocator.get_new_breakpoint_id;
  normalize_breakpoint := Normalizer.normalize_written;
|}.

Definition modelled_command_utils : CommandUtils := {|
  validate_debuggee_id := CommandUtilsModel.validate_debuggee_id;
|}.

Definition modelled_environment : CliEnvironment := {|
  new_CliServices := λ _, mret {| account := "dev@example.com" |};
  other_cmd := λ _ _ _, mret tt;
|}.

(** A [breakpoint_utils] whose normalizer accepts no record, everything
    else as above. *)
Definition rejecting_breakpoint_utils : BreakpointUtils := {|
  LOCATION_ERROR_MSG := LOCATION_ERROR_MSG_MODEL;
  parse_and_validate_location := LocationParser.parse_and_validate_location;
  get_new_breakpoint_id := Allocator.get_new_breakpoint_id;
  normalize_breakpoint := λ _, None;
|}.

(** ** Example invocations *)

Module Scenario.

(** A store that knows debuggee [d1] and holds no breakpoint. *)
Definition fresh_store : gmap string value :=
  {[ "debuggees/d1" := VDict {[ "id" := VStr "d1" ]} ]}.

Definition fresh_world (faults : list bool) : world :=
  World fresh_store 1700000000000 faults [] [].

Definition services : CliServices := {| account := "dev@example.com" |}.

(** [set_snapshot LOCATION --debuggee_id d1] with the given optional flags. *)
Definition set_snapshot_args (loc : string) (cond : option string)
    (exprs : option (list string)) : Namespace := {|
  func := Some set_snapshot;
  debuggee_id := "d1";
  location := loc;
  condition := cond;
  expression := exprs;
  format := "default";
|}.

(** [set_snapshot main.py:42 --condition "x>5"] *)
Definition main_py_42 : Namespace :=
  set_snapshot_args "main.py:42" (Some "x>5") None.

(** The command line without a subcommand. *)
Definition no_subcommand : Namespace := {|
  func := None;
  debuggee_id := "";
  location := "";
  condition := None;
  expression := None;
  format := "default";
|}.

(** The store answers the debuggee lookup and is unreachable afterwards. *)
Definition store_goes_down : list bool := false :: replicate 10 true.

(** The worlds an invocation for [d1] goes through, with the collaborators
    as the spec describes them. *)
Definition after_validation (faults : list bool) : world :=
  (CommandUtilsModel.validate_debuggee_id "d1" (fresh_world faults)).2.

Definition after_allocation (faults : list bool) : world :=
  (Allocator.get_new_breakpoint_id "d1" (after_validation faults)).2.

(** Two allocators that both read the counter before either writes:
    allocator 0 wins the first conditional write, allocator 1 loses its
    own, reads again and wins. *)
Definition two_racing : list nat := [0; 1; 0; 1; 1; 1]%nat.

End Scenario.

(** ** Theorems *)

Module LocationParserFacts.
Import LocationParser.

Lemma rsplit_colon_None (s : string) :
  rsplit_colon s = None ↔ contains_colon s = false.
Proof.
  induction s as [|c rest IH]; simpl; [done|].
  destruct (rsplit_colon rest) as [[p q]|].
  - split; [done|]. intros [_ H]%orb_false_iff. by apply IH in H.
  - destruct (Ascii.eqb c COLON); simpl; [done|]. by rewrite <- IH.
Qed.

Lemma rsplit_colon_app (p q : string) :
  contains_colon q = false → rsplit_colon (p +:+ String COLON q) = Some (p, q).
Proof.
  intros Hq. induction p as [|c p IH]; simpl.
  - apply rsplit_colon_None in Hq. by rewrite Hq.
  - by rewrite IH.
Qed.

Lemma rsplit_colon_spec (s p q : string) :
  rsplit_colon s = Some (p, q) ↔ s = p +:+ String COLON q ∧ contains_colon q = false.
Proof.
  split; [|intros [-> Hq]; by apply rsplit_colon_app].
  revert p. induction s as [|c rest IH]; intros p; simpl; [done|].
  destruct (rsplit_colon rest) as [[p' q']|] eqn:Hr.
  - intros [= <- <-]. destruct (IH p' eq_refl) as [-> Hq]. done.
  - destruct (Ascii.eqb_spec c COLON) as [->|]; [|done].
    intros [= <- <-]. split; [done|]. by apply rsplit_colon_None.
Qed.

(** C8 (location parser).  The parser accepts exactly the strings
    [p ++ ":" ++ l] in which [l] holds no colon (so the split is at the last
    colon), [p] is not empty and [l] reads as a positive integer, and then
    returns [{path: p, line: l}]; it is a function of its input alone.  In
    particular "main.py:10" gives [{path: "main.py", line: 10}], and "nofile"
    and "main.py:0" give the invalid result. *)
Theorem parse_and_validate_location_spec :
  (∀ s p n,
      parse_and_validate_location s = Some (mkLocation p n) ↔
      ∃ l, s = p +:+ ":" +:+ l ∧ contains_colon l = false ∧
           p ≠ "" ∧ parse_int l = Some n ∧ (0 < n)%Z) ∧
  parse_and_validate_location "main.py:10" = Some (mkLocation "main.py" 10) ∧
  parse_and_validate_location "nofile" = None ∧
  parse_and_validate_location "main.py:0" = None ∧
  parse_and_validate_location "C:\src\main.py:7" = Some (mkLocation "C:\src\main.py" 7).
Proof.
  split; [|by vm_compute].
  intros s p n. unfold parse_and_validate_location. split.
  - destruct (rsplit_colon s) as [[p' l]|] eqn:Hs; [|done].
    apply rsplit_colon_spec in Hs as [-> Hl].
    destruct (String.eqb_spec p' "") as [|Hp]; [done|].
    destruct (parse_int l) as [m|] eqn:Hm; [|done].
    destruct (Z.ltb_spec 0 m); [|done].
    intros [= <- <-]. by exists l.
  - intros (l & -> & Hl & Hp & Hn & Hpos).
    change (p +:+ ":" +:+ l) with (p +:+ String COLON l).
    rewrite rsplit_colon_app by done.
    destruct (String.eqb_spec p ""); [done|].
    rewrite Hn. by destruct (Z.ltb_spec 0 n); [|lia].
Qed.

End LocationParserFacts.

(** ** The monad and the store client *)

Lemma bind_run {A B} (m : M A) (f : A → M B) (w : world) :
  (m ≫= f) w =
  match m w with
  | (Ret a, w') => f a w'
  | (Raise e, w') => (Raise e, w')
  end.
Proof. reflexivity. Qed.

Lemma bind_ret_run {A B} (m : M A) (f : A → M B) (w w' : world) (a : A) :
  m w = (Ret a, w') → (m ≫= f) w = f a w'.
Proof. intros H. by rewrite bind_run, H. Qed.

Lemma bind_raise_run {A B} (m : M A) (f : A → M B) (w w' : world) (e : exn) :
  m w = (Raise e, w') → (m ≫= f) w = (Raise e, w').
Proof. intros H. by rewrite bind_run, H. Qed.

Ltac step_M :=
  repeat first
    [ erewrite bind_ret_run by eassumption
    | erewrite bind_raise_run by eassumption
    | rewrite bind_run ];
  simpl.

(** A call to [set] is logged whether or not the store answers, and nothing
    else is logged. *)
Lemma set_calls (p : string) (data : value) (w : world) :
  calls (FirebaseRtdbService.set p data w).2 = calls w ++ [CallSet p data].
Proof.
  unfold FirebaseRtdbService.set, FirebaseRtdbService.reachable,
    FirebaseRtdbService.commit, record_call.
  rewrite !bind_run; simpl.
  destruct (outages w) as [|[] rest]; reflexivity.
Qed.

Lemma set_never_raises (p : string) (data : value) (w : world) :
  ∃ bp w', FirebaseRtdbService.set p data w = (Ret bp, w').
Proof.
  unfold FirebaseRtdbService.set, FirebaseRtdbService.reachable,
    FirebaseRtdbService.commit, record_call.
  rewrite !bind_run; simpl.
  destruct (outages w) as [|[] rest]; simpl; eauto.
Qed.

(** When the store answers, [set] commits the record with its server values
    resolved at the store's clock. *)
Lemma set_reachable (p : string) (data : value) (w : world) :
  head (outages w) ≠ Some true →
  FirebaseRtdbService.set p data w =
    (Ret (Some (resolve_server_values (server_time w) data)),
     World (<[p := resolve_server_values (server_time w) data]> (store w))
       (server_time w) (tail (outages w)) (calls w ++ [CallSet p data]) (output w)).
Proof.
  intros Hup.
  unfold FirebaseRtdbService.set, FirebaseRtdbService.reachable,
    FirebaseRtdbService.commit, record_call.
  rewrite !bind_run; simpl.
  destruct (outages w) as [|[] rest]; simpl in *; done.
Qed.

(** ** The record written by [set_snapshot] *)

Lemma is_server_timestamp_spec (v : value) :
  is_server_timestamp v = true ↔ v = SERVER_TIMESTAMP.
Proof.
  split; [|by intros ->].
  destruct v as [| | | | |d]; simpl; try done.
  intros [Hsize Hsv]%andb_true_iff. apply bool_decide_eq_true in Hsize.
  destruct (d !! ".sv") as [[| | |s| |]|] eqn:Hd; try done.
  apply String.eqb_eq in Hsv as ->.
  unfold SERVER_TIMESTAMP. f_equal.
  rewrite <- (insert_delete_id d ".sv" (VStr "timestamp")) by done.
  assert (delete ".sv" d = ∅) as ->; [|by rewrite insert_empty].
  apply map_size_empty_iff. rewrite map_size_delete_Some by eauto. lia.
Qed.

Lemma VDict_inj (d1 d2 : dict) : VDict d1 = VDict d2 → d1 = d2.
Proof.
  intros H.
  exact (f_equal (λ v, match v with VDict d => d | _ => d1 end) H).
Qed.

Lemma location_value_not_sentinel (loc : SourceLocation) :
  location_value loc ≠ SERVER_TIMESTAMP.
Proof.
  intros H%VDict_inj. apply (f_equal (lookup "path")) in H.
  by rewrite lookup_insert_eq in H.
Qed.

Section SnapshotData.
Variables (args : Namespace) (cli_services : CliServices) (loc : SourceLocation).

Lemma snapshot_data_condition :
  snapshot_data args cli_services loc !! "condition" =
  if truthy_str (condition args) then VStr <$> condition args else None.
Proof.
  unfold snapshot_data.
  destruct (condition args) as [s|]; simpl;
    destruct (truthy_list (expression args)); try destruct (negb _);
    by simplify_map_eq.
Qed.

Lemma snapshot_data_expressions :
  snapshot_data args cli_services loc !! "expressions" =
  if truthy_list (expression args)
  then (λ es, VList (VStr <$> es)) <$> expression args else None.
Proof.
  unfold snapshot_data.
  destruct (expression args) as [[|e es]|]; simpl;
    destruct (truthy_str (condition args)); by simplify_map_eq.
Qed.

Lemma snapshot_data_create_time :
  snapshot_data args cli_services loc !! "createTimeUnixMsec" = Some SERVER_TIMESTAMP.
Proof.
  unfold snapshot_data.
  destruct (truthy_list (expression args)), (truthy_str (condition args));
    by simplify_map_eq.
Qed.

Lemma snapshot_data_location :
  snapshot_data args cli_services loc !! "location" = Some (location_value loc).
Proof.
  unfold snapshot_data.
  destruct (truthy_list (expression args)), (truthy_str (condition args));
    by simplify_map_eq.
Qed.

Lemma snapshot_data_user_email :
  snapshot_data args cli_services loc !! "userEmail" = Some (VStr (account cli_services)).
Proof.
  unfold snapshot_data.
  destruct (truthy_list (expression args)), (truthy_str (condition args));
    by simplify_map_eq.
Qed.

Lemma snapshot_data_id : snapshot_data args cli_services loc !! "id" = None.
Proof.
  unfold snapshot_data.
  destruct (truthy_list (expression args)), (truthy_str (condition args));
    by simplify_map_eq.
Qed.

(** The keys of the record, and what each one holds. *)
Lemma snapshot_data_lookup (k : string) (v : value) :
  snapshot_data args cli_services loc !! k = Some v →
  (k = "location" ∧ v = location_value loc) ∨
  (k = "userEmail" ∧ v = VStr (account cli_services)) ∨
  (k = "createTimeUnixMsec" ∧ v = SERVER_TIMESTAMP) ∨
  (k = "condition" ∧ ∃ s, v = VStr s) ∨
  (k = "expressions" ∧ ∃ es, v = VList es).
Proof.
  unfold snapshot_data.
  destruct (truthy_list (expression args)), (truthy_str (condition args));
    rewrite ?lookup_insert_Some, ?lookup_singleton_Some;
    intuition (subst; eauto 7).
Qed.

End SnapshotData.

(** ** [SetSnapshotCommand.cmd] *)

Section CommandFacts.
Context `{!BreakpointUtils, !CommandUtils}.
Variables (args : Namespace) (cli_services : CliServices).

(** The command up to the allocation of the id. *)
Lemma cmd_after_allocation (w0 w1 w2 : world) (loc : SourceLocation)
    (allocated : option string) :
  validate_debuggee_id (debuggee_id args) w0 = (Ret (), w1) →
  parse_and_validate_location (location args) = Some loc →
  get_new_breakpoint_id (debuggee_id args) w1 = (Ret allocated, w2) →
  cmd args cli_services w0 =
  match allocated with
  | None => (Ret (), w2)
  | Some breakpoint_id =>
      (bp ← FirebaseRtdbService.set
              (active_path (debuggee_id args) breakpoint_id)
              (VDict (<["id" := VStr breakpoint_id]> (snapshot_data args cli_services loc)));
       match normalize_breakpoint bp with
       | None => user_output_error CREATE_FAILED_MESSAGE ;; raise SilentlyExitError
       | Some bp =>
           if bool_decide (format args = "json") || bool_decide (format args = "pretty-json")
           then print_json bp (bool_decide (format args = "pretty-json"))
           else user_output_normal (CREATE_SUCCESS_MESSAGE breakpoint_id)
       end) w2
  end.
Proof.
  intros Hvalid Hloc Halloc. unfold cmd.
  rewrite (bind_ret_run _ _ _ _ _ Hvalid), Hloc.
  rewrite (bind_ret_run _ _ _ _ _ Halloc).
  by destruct allocated.
Qed.

(** Once the id is allocated the command calls the store exactly once more,
    to write the record under the active namespace. *)
Lemma cmd_write_call (w0 w1 w2 : world) (loc : SourceLocation) (breakpoint_id : string) :
  validate_debuggee_id (debuggee_id args) w0 = (Ret (), w1) →
  parse_and_validate_location (location args) = Some loc →
  get_new_breakpoint_id (debuggee_id args) w1 = (Ret (Some breakpoint_id), w2) →
  calls (cmd args cli_services w0).2 =
  calls w2 ++
    [CallSet (active_path (debuggee_id args) breakpoint_id)
       (VDict (<["id" := VStr breakpoint_id]> (snapshot_data args cli_services loc)))].
Proof.
  intros Hvalid Hloc Halloc.
  rewrite (cmd_after_allocation _ _ _ _ _ Hvalid Hloc Halloc).
  rewrite <- set_calls.
  destruct (set_never_raises
              (active_path (debuggee_id args) breakpoint_id)
              (VDict (<["id" := VStr breakpoint_id]> (snapshot_data args cli_services loc)))
              w2) as (bp & w3 & Hset).
  rewrite (bind_ret_run _ _ _ _ _ Hset), Hset. simpl.
  destruct (normalize_breakpoint bp); [|done].
  by destruct (_ || _).
Qed.

(** C2, as amended.  When the location does not parse, the command has
    called [validate_debuggee_id] (a store lookup) and nothing else: if the
    validation returned, the parser's error is printed on stderr and the
    process exits with status 2 in the world the validation left, so no id
    is allocated and nothing is written; if the validation raised, that
    exception is the outcome. *)
Theorem cmd_invalid_location (w0 : world) :
  parse_and_validate_location (location args) = None →
  cmd args cli_services w0 =
  match validate_debuggee_id (debuggee_id args) w0 with
  | (Ret _, w1) =>
      (Raise (SystemExit 2),
       World (store w1) (server_time w1) (outages w1) (calls w1)
         (output w1 ++ [OutStderr LOCATION_ERROR_MSG]))
  | (Raise e, w1) => (Raise e, w1)
  end.
Proof.
  intros Hloc. unfold cmd. rewrite bind_run.
  destruct (validate_debuggee_id (debuggee_id args) w0) as [[[]|e] w1]; [|done].
  by rewrite Hloc.
Qed.

(** C3, as amended.  [set_snapshot main.py:42 --condition "x>5"], with the
    debuggee validated, the id [breakpoint_id] allocated and the store
    reachable, writes one record, at
    [breakpoints/{debuggeeId}/active/{breakpointId}]: its location is
    [{path: "main.py", line: 42}], its condition is "x>5", its id is the
    allocated one, its creation time is the store's clock, and it has no
    [expressions] key.  If the store held no breakpoint before, this
    record is the only one it holds afterwards. *)
Theorem cmd_creates_one_active_breakpoint (w0 w1 w2 : world) (breakpoint_id : string) :
  location args = "main.py:42" →
  condition args = Some "x>5" →
  expression args = None →
  parse_and_validate_location "main.py:42" = Some (mkLocation "main.py" 42) →
  validate_debuggee_id (debuggee_id args) w0 = (Ret (), w1) →
  get_new_breakpoint_id (debuggee_id args) w1 = (Ret (Some breakpoint_id), w2) →
  head (outages w2) ≠ Some true →
  ∃ record : dict,
    store (cmd args cli_services w0).2 =
      <["breakpoints/" +:+ debuggee_id args +:+ "/active/" +:+ breakpoint_id
          := VDict record]> (store w2) ∧
    record !! "location" = Some (VDict {[ "path" := VStr "main.py"; "line" := VInt 42 ]}) ∧
    record !! "condition" = Some (VStr "x>5") ∧
    record !! "expressions" = None ∧
    record !! "id" = Some (VStr breakpoint_id) ∧
    record !! "userEmail" = Some (VStr (account cli_services)) ∧
    record !! "createTimeUnixMsec" = Some (VInt (server_time w2)) ∧
    ((∀ q, String.prefix "breakpoints/" q = true → store w2 !! q = None) →
     ∀ q, String.prefix "breakpoints/" q = true →
       (is_Some (store (cmd args cli_services w0).2 !! q) ↔
        q = "breakpoints/" +:+ debuggee_id args +:+ "/active/" +:+ breakpoint_id)).
Proof.
  intros Hl Hc He Hparse Hvalid Halloc Hup. rewrite <- Hl in Hparse.
  rewrite (cmd_after_allocation _ _ _ _ _ Hvalid Hparse Halloc).
  rewrite bind_run, (set_reachable _ _ _ Hup).
  set (data := <["id" := VStr breakpoint_id]> _).
  set (w3 := World _ _ _ _ _).
  assert (store (match normalize_breakpoint
                         (Some (resolve_server_values (server_time w2) (VDict data))) with
                 | Some bp =>
                     if bool_decide (format args = "json")
                        || bool_decide (format args = "pretty-json")
                     then print_json bp (bool_decide (format args = "pretty-json"))
                     else user_output_normal (CREATE_SUCCESS_MESSAGE breakpoint_id)
                 | None => user_output_error CREATE_FAILED_MESSAGE ;; raise SilentlyExitError
                 end w3).2 = store w3) as ->.
  { destruct (normalize_breakpoint _); [by destruct (_ || _)|done]. }
  exists (resolve_fields (server_time w2) data). split; [done|].
  unfold resolve_fields, data. rewrite !lookup_fmap.
  rewrite lookup_insert_eq.
  rewrite !lookup_insert_ne by done.
  rewrite snapshot_data_location, snapshot_data_condition, snapshot_data_expressions,
    snapshot_data_user_email, snapshot_data_create_time, Hc, He.
  split_and!; [done..|].
  intros Hnone q Hq. simpl. split.
  - intros Hsome.
    destruct (decide (q = active_path (debuggee_id args) breakpoint_id)) as [|Hne]; [done|].
    rewrite lookup_insert_ne, Hnone in Hsome by done. by destruct Hsome.
  - intros ->. by rewrite lookup_insert_eq.
Qed.

(** C4.  Whenever the command creates a breakpoint, i.e. the debuggee is
    validated, the location parses and an id is allocated, its one write to
    the store carries [createTimeUnixMsec] as the server-timestamp sentinel
    [{'.sv': 'timestamp'}], which is not a number computed locally, and no
    other field of the written record holds the sentinel. *)
Theorem cmd_writes_server_timestamp (w0 w1 w2 : world) (loc : SourceLocation)
    (breakpoint_id : string) :
  validate_debuggee_id (debuggee_id args) w0 = (Ret (), w1) →
  parse_and_validate_location (location args) = Some loc →
  get_new_breakpoint_id (debuggee_id args) w1 = (Ret (Some breakpoint_id), w2) →
  ∃ data : dict,
    calls (cmd args cli_services w0).2 =
      calls w2 ++ [CallSet (active_path (debuggee_id args) breakpoint_id) (VDict data)] ∧
    data !! "createTimeUnixMsec" = Some SERVER_TIMESTAMP ∧
    (∀ t, SERVER_TIMESTAMP ≠ VInt t) ∧
    (∀ k, data !! k = Some SERVER_TIMESTAMP → k = "createTimeUnixMsec").
Proof.
  intros Hvalid Hloc Halloc. eexists. split; [by eapply cmd_write_call|].
  split; [|split; [done|]].
  - rewrite lookup_insert_ne by done. apply snapshot_data_create_time.
  - intros k [[_ [=]]|[_ Hk]]%lookup_insert_Some.
    apply snapshot_data_lookup in Hk
      as [[_ Hv]|[[_ [=]]|[[-> _]|[[_ [s [=]]]|[_ [es [=]]]]]]]; [|done].
    by destruct (location_value_not_sentinel loc).
Qed.

(** C10.  In the record the command writes, the [condition] key is present
    exactly when a non-empty condition was given (and then holds it), and
    the [expressions] key is present exactly when at least one expression
    was given (and then holds them in order); without expressions the key
    is absent, not an empty sequence. *)
Theorem cmd_optional_keys (w0 w1 w2 : world) (loc : SourceLocation)
    (breakpoint_id : string) :
  validate_debuggee_id (debuggee_id args) w0 = (Ret (), w1) →
  parse_and_validate_location (location args) = Some loc →
  get_new_breakpoint_id (debuggee_id args) w1 = (Ret (Some breakpoint_id), w2) →
  ∃ data : dict,
    calls (cmd args cli_services w0).2 =
      calls w2 ++ [CallSet (active_path (debuggee_id args) breakpoint_id) (VDict data)] ∧
    (is_Some (data !! "condition") ↔ ∃ s, condition args = Some s ∧ s ≠ "") ∧
    (∀ s, condition args = Some s → s ≠ "" → data !! "condition" = Some (VStr s)) ∧
    (is_Some (data !! "expressions") ↔ ∃ e es, expression args = Some (e :: es)) ∧
    (∀ es, expression args = Some es → es ≠ [] →
       data !! "expressions" = Some (VList (VStr <$> es))) ∧
    (expression args = None ∨ expression args = Some [] → data !! "expressions" = None).
Proof.
  intros Hvalid Hloc Halloc. eexists. split; [by eapply cmd_write_call|].
  rewrite !lookup_insert_ne by done.
  rewrite snapshot_data_condition, snapshot_data_expressions.
  split_and!.
  - destruct (condition args) as [s|]; simpl.
    + destruct (String.eqb_spec s ""); simpl; split.
      * by intros [].
      * intros (s' & [= <-] & ?). done.
      * eauto.
      * eauto.
    + split; [by intros []|]. by intros (? & [=] & _).
  - intros s -> Hs. simpl. by destruct (String.eqb_spec s "").
  - destruct (expression args) as [[|e es]|]; simpl; split;
      try (by intros []); try (by intros (? & ? & [=])); eauto.
  - intros es -> Hes. by destruct es.
  - by intros [->| ->].
Qed.


End CommandFacts.

(** ** [main] and the exit status of the process *)

Section CliFacts.
Context `{!BreakpointUtils, !CommandUtils, !CliEnvironment}.
Variables (args : Namespace).

Lemma run_command (w w0 : world) (c : command) (cli_services : CliServices) :
  func args = Some c →
  new_CliServices args w = (Ret cli_services, w0) →
  run args w =
  (exit_status (command_func c args cli_services w0).1,
   (command_func c args cli_services w0).2).
Proof.
  intros Hfunc Hsvc. unfold run, main. rewrite Hfunc.
  rewrite (bind_ret_run _ _ _ _ _ Hsvc).
  by destruct (command_func c args cli_services w0).
Qed.

(** C1 (the code departs from the claim).  When [get_new_breakpoint_id]
    returns [None], [cmd] returns at once and normally: the process ends
    with exit status 0, in exactly the world the allocator left, so the
    command itself prints nothing and the status does not signal the
    failure. *)
Theorem allocation_failure_exit_status (w w0 w1 w2 : world)
    (cli_services : CliServices) (loc : SourceLocation) :
  func args = Some set_snapshot →
  new_CliServices args w = (Ret cli_services, w0) →
  validate_debuggee_id (debuggee_id args) w0 = (Ret (), w1) →
  parse_and_validate_location (location args) = Some loc →
  get_new_breakpoint_id (debuggee_id args) w1 = (Ret None, w2) →
  run args w = (0%Z, w2).
Proof.
  intros Hfunc Hsvc Hvalid Hloc Halloc.
  rewrite (run_command _ _ _ _ Hfunc Hsvc). simpl.
  by rewrite (cmd_after_allocation _ _ _ _ _ _ _ Hvalid Hloc Halloc).
Qed.

(** C5.  When the record returned by the store's [set] is not accepted by
    [normalize_breakpoint] (it returns [None]), the command reports
    [CREATE_FAILED_MESSAGE] through [user_output.error] and raises
    [SilentlyExitError], so the process exits with status 1. *)
Theorem normalization_failure_exit_status (w w0 w1 w2 w3 : world)
    (cli_services : CliServices) (loc : SourceLocation) (breakpoint_id : string)
    (bp : option value) :
  func args = Some set_snapshot →
  new_CliServices args w = (Ret cli_services, w0) →
  validate_debuggee_id (debuggee_id args) w0 = (Ret (), w1) →
  parse_and_validate_location (location args) = Some loc →
  get_new_breakpoint_id (debuggee_id args) w1 = (Ret (Some breakpoint_id), w2) →
  FirebaseRtdbService.set (active_path (debuggee_id args) breakpoint_id)
    (VDict (<["id" := VStr breakpoint_id]> (snapshot_data args cli_services loc))) w2
    = (Ret bp, w3) →
  normalize_breakpoint bp = None →
  run args w =
  (1%Z, World (store w3) (server_time w3) (outages w3) (calls w3)
          (output w3 ++ [OutError CREATE_FAILED_MESSAGE])).
Proof.
  intros Hfunc Hsvc Hvalid Hloc Halloc Hset Hnorm.
  rewrite (run_command _ _ _ _ Hfunc Hsvc). simpl.
  rewrite (cmd_after_allocation _ _ _ _ _ _ _ Hvalid Hloc Halloc).
  by rewrite (bind_ret_run _ _ _ _ _ Hset), Hnorm.
Qed.

(** C6.  Without a subcommand ([func] not bound) the program prints
    [MISSING_ARGUMENT_MESSAGE] on stderr and exits with status 1, before
    any service is set up; when the selected command returns normally the
    program exits with status 0. *)
Theorem main_exit_status (w : world) :
  (func args = None →
   run args w =
   (1%Z, World (store w) (server_time w) (outages w) (calls w)
           (output w ++ [OutStderr MISSING_ARGUMENT_MESSAGE]))) ∧
  (∀ c cli_services w0 w1,
     func args = Some c →
     new_CliServices args w = (Ret cli_services, w0) →
     command_func c args cli_services w0 = (Ret (), w1) →
     run args w = (0%Z, w1)).
Proof.
  split.
  - intros Hfunc. unfold run, main. by rewrite Hfunc.
  - intros c cli_services w0 w1 Hfunc Hsvc Hcmd.
    by rewrite (run_command _ _ _ _ Hfunc Hsvc), Hcmd.
Qed.

End CliFacts.

(** ** The breakpoint normalizer *)

Module NormalizerFacts.
Import Normalizer.

Lemma resolve_fields_lookup (t : Z) (d : dict) (k : string) :
  resolve_fields t d !! k =
  (λ x, if is_server_timestamp x then VInt t else x) <$> d !! k.
Proof. apply lookup_fmap. Qed.

Lemma resolve_fields_resolved (t : Z) (d : dict) (k : string) (v : value) :
  resolve_fields t d !! k = Some v → is_server_timestamp v = false.
Proof.
  rewrite resolve_fields_lookup. destruct (d !! k) as [x|]; [|done]. simpl.
  destruct (is_server_timestamp x) eqn:Hx; by intros [= <-].
Qed.

Lemma resolve_fields_id (t : Z) (d : dict) :
  (∀ k v, d !! k = Some v → is_server_timestamp v = false) →
  resolve_fields t d = d.
Proof.
  intros Hd. apply map_eq. intros k. rewrite resolve_fields_lookup.
  destruct (d !! k) as [x|] eqn:Hk; [|done]. simpl. by rewrite (Hd k x Hk).
Qed.

Lemma default_field_lookup_ne (k j : string) (v : value) (d : dict) :
  j ≠ k → default_field k v d !! j = d !! j.
Proof.
  intros Hne. unfold default_field. destruct (missing d k); [|done].
  by rewrite lookup_insert_ne.
Qed.

Lemma default_field_lookup_Some (k j : string) (v x : value) (d : dict) :
  default_field k v d !! j = Some x → d !! j = Some x ∨ (j = k ∧ x = v).
Proof.
  unfold default_field. destruct (missing d k); [|by left].
  rewrite lookup_insert_Some. intros [[<- <-]|[_ Hj]]; auto.
Qed.

Lemma default_field_present (k : string) (v : value) (d : dict) :
  v ≠ VNone → missing (default_field k v d) k = false.
Proof.
  intros Hv. unfold default_field. destruct (missing d k) eqn:Hm; [|done].
  unfold missing. rewrite lookup_insert_eq. by destruct v.
Qed.

Lemma missing_ext (d1 d2 : dict) (k : string) :
  d1 !! k = d2 !! k → missing d1 k = missing d2 k.
Proof. unfold missing. by intros ->. Qed.

Lemma default_field_id (k : string) (v : value) (d : dict) :
  missing d k = false → default_field k v d = d.
Proof. unfold default_field. by intros ->. Qed.

(** What a canonical record looks like. *)
Lemma normalize_breakpoint_Canonical (ns : namespace) (t : Z) (d c : dict) :
  normalize_breakpoint ns t (Some d) = Canonical c →
  (∃ i, c !! "id" = Some (VStr i)) ∧
  (∀ k v, c !! k = Some v → is_server_timestamp v = false) ∧
  missing c "condition" = false ∧
  missing c "expressions" = false ∧
  c !! "isFinalState" = Some (VBool (is_final ns)).
Proof.
  unfold normalize_breakpoint.
  destruct (d !! "id") as [[| | |i| |]|] eqn:Hid; try done.
  intros [= <-]. split_and!.
  - exists i. rewrite lookup_insert_ne by done.
    rewrite !default_field_lookup_ne by done.
    by rewrite resolve_fields_lookup, Hid.
  - intros k v [[_ <-]|[_ Hk]]%lookup_insert_Some; [done|].
    apply default_field_lookup_Some in Hk as [Hk|[_ ->]]; [|done].
    apply default_field_lookup_Some in Hk as [Hk|[_ ->]]; [|done].
    by eapply resolve_fields_resolved.
  - rewrite (missing_ext _ (default_field "condition" (VStr "")
                              (resolve_fields t d))).
    + by apply default_field_present.
    + rewrite lookup_insert_ne by done. by rewrite default_field_lookup_ne.
  - rewrite (missing_ext _ (default_field "expressions" (VList [])
                              (default_field "condition" (VStr "")
                                 (resolve_fields t d)))).
    + by apply default_field_present.
    + by rewrite lookup_insert_ne.
  - by rewrite lookup_insert_eq.
Qed.

(** C7.  The normalizer is idempotent.  A well-formed raw record (one with
    a string [id]) is normalized to a canonical record, and normalizing that
    canonical record again, read from the same namespace, returns it
    unchanged, whatever commit time is used for the second pass. *)
Theorem normalize_breakpoint_idempotent (ns : namespace) (t t' : Z) (d : dict) :
  well_formed d →
  ∃ c, normalize_breakpoint ns t (Some d) = Canonical c ∧
       normalize_breakpoint ns t' (Some c) = Canonical c.
Proof.
  intros [i Hid].
  assert (∃ c, normalize_breakpoint ns t (Some d) = Canonical c) as [c Hc].
  { unfold normalize_breakpoint. rewrite Hid. eauto. }
  exists c. split; [done|].
  destruct (normalize_breakpoint_Canonical _ _ _ _ Hc)
    as ([j Hj] & Hres & Hcond & Hexpr & Hfinal).
  unfold normalize_breakpoint. rewrite Hj.
  rewrite (resolve_fields_id t' c Hres).
  rewrite (default_field_id "condition" _ c Hcond).
  rewrite (default_field_id "expressions" _ c Hexpr).
  by rewrite (insert_id c _ _ Hfinal).
Qed.

End NormalizerFacts.

(** ** The breakpoint id allocator *)

Module AllocatorFacts.
Import Allocator.

Lemma make_id_inj (prefix : string) (n m : Z) :
  make_id prefix n = make_id prefix m → n = m.
Proof.
  unfold make_id. intros H%(inj (String.app prefix)). by apply (inj pretty) in H.
Qed.

(** A read answers with the stored value or finds the store unreachable,
    and changes nothing in the store. *)
Lemma get_run (p : string) (w : world) :
  ∃ r w', FirebaseRtdbService.get p w = (Ret r, w') ∧
          store w' = store w ∧ (r = None ∨ r = Some (store w !! p)).
Proof.
  unfold FirebaseRtdbService.get, FirebaseRtdbService.reachable,
    FirebaseRtdbService.lookup_store, record_call.
  rewrite !bind_run; simpl.
  destruct (outages w) as [|[] rest]; simpl; eauto 6.
Qed.

(** A conditional write is won only when the path is absent or holds the
    expected integer, and then stores the new one; otherwise the store is
    unchanged. *)
Lemma set_if_run (p : string) (expected new : Z) (w : world) :
  ∃ r w', FirebaseRtdbService.set_if_absent_or_matches p expected new w = (Ret r, w') ∧
          ((r = Some true ∧
            FirebaseRtdbService.counter_matches (store w !! p) expected = true ∧
            store w' = <[p := VInt new]> (store w)) ∨
           (r ≠ Some true ∧ store w' = store w)).
Proof.
  unfold FirebaseRtdbService.set_if_absent_or_matches, FirebaseRtdbService.reachable,
    FirebaseRtdbService.commit_if, record_call.
  rewrite !bind_run; simpl.
  destruct (outages w) as [|[] rest]; simpl;
    try (by eexists _, _; split; [done|right]);
    rewrite bind_run; simpl;
    destruct (FirebaseRtdbService.counter_matches (store w !! p) expected) eqn:Hm;
    simpl; eexists _, _; (split; [done|]); auto.
Qed.

(** The three kinds of step: an allocator that is done stays as it is; a
    step that hands out no id leaves the store alone; the step that hands
    out an id has won the conditional write for the number after the one it
    had read. *)
Lemma allocator_step_cases (prefix debuggee : string) (a : allocator) (w : world) :
  ∃ a' w', allocator_step prefix debuggee a w = (Ret a', w') ∧
    ((a' = a ∧ w' = w ∧ ((∃ id, a = Returned id) ∨ a = Failed)) ∨
     (store w' = store w ∧ (∀ id, a' ≠ Returned id) ∧
      (∀ k seen, a' = Claiming k seen →
         seen = counter_value (store w !! counter_path debuggee))) ∨
     (∃ k seen, a = Claiming k seen ∧
        FirebaseRtdbService.counter_matches
          (store w !! counter_path debuggee) seen = true ∧
        store w' = <[counter_path debuggee := VInt (seen + 1)]> (store w) ∧
        a' = Returned (make_id prefix (seen + 1)))).
Proof.
  destruct a as [[|k]|k seen|id|]; simpl.
  - rewrite bind_run. simpl. eexists _, _. split; [done|].
    right; left. split_and!; done.
  - destruct (get_run (counter_path debuggee) w) as (r & w' & Hget & Hstore & Hr).
    rewrite (bind_ret_run _ _ _ _ _ Hget). eexists _, _. split; [done|].
    right; left. split_and!; [done|by destruct r|].
    intros k' seen' Heq. destruct Hr as [->| ->]; [done|]. by injection Heq as _ <-.
  - destruct (set_if_run (counter_path debuggee) seen (seen + 1) w)
      as (r & w' & Hcas & [(-> & Hm & Hstore)|[Hr Hstore]]);
      rewrite (bind_ret_run _ _ _ _ _ Hcas); eexists _, _; (split; [done|]).
    + right; right. by exists k, seen.
    + right; left. split_and!; [done|by destruct r as [[]|]..].
  - eexists _, _. split; [done|]. left. eauto.
  - eexists _, _. split; [done|]. left. eauto.
Qed.

(** [allocate] is the step repeated until the allocator is done. *)
Lemma run_alone_allocate (prefix debuggee : string) (attempts fuel : nat) (w : world) :
  (2 * attempts + 1 ≤ fuel)%nat →
  run_alone prefix debuggee fuel (Reading attempts) w =
  allocate prefix attempts debuggee w.
Proof.
  revert fuel w. induction attempts as [|attempts IH]; intros fuel w Hfuel.
  - destruct fuel as [|fuel]; [lia|]. simpl. rewrite !bind_run. simpl.
    by destruct fuel.
  - destruct fuel as [|fuel]; [lia|]. simpl. rewrite !bind_run.
    destruct (FirebaseRtdbService.get (counter_path debuggee) w) as [[seen|e] w1];
      [|done].
    simpl. destruct seen as [v|]; [|apply IH; lia].
    destruct fuel as [|fuel]; [lia|]. simpl. rewrite !bind_run.
    destruct (FirebaseRtdbService.set_if_absent_or_matches _ _ _ w1) as [[won|e] w2];
      [|done].
    simpl. destruct won as [[]|]; [by destruct fuel|apply IH; lia..].
Qed.

Lemma start_consistent (prefix debuggee : string) (n : nat) (w : world) :
  ids_consistent prefix debuggee w (w, replicate n (Reading MAX_ATTEMPTS)).
Proof.
  unfold ids_consistent. simpl. split_and!.
  - by intros i id [[=] _]%lookup_replicate.
  - by intros i j id _ [[=] _]%lookup_replicate.
  - by intros i k seen [[=] _]%lookup_replicate.
  - done.
  - done.
Qed.

(** A step that hands out no id and leaves the store alone. *)
Lemma update_consistent (prefix debuggee : string) (w0 w w' : world)
    (allocators : list allocator) (i : nat) (a : allocator) :
  ids_consistent prefix debuggee w0 (w, allocators) →
  store w' = store w →
  (∀ id, a ≠ Returned id) →
  (∀ k seen, a = Claiming k seen →
     (counter_value (store w0 !! counter_path debuggee) ≤ seen)%Z) →
  ids_consistent prefix debuggee w0 (w', <[i := a]> allocators).
Proof.
  unfold ids_consistent. simpl.
  intros (Hret & Hdist & Hclaim & Hbase & Hframe) Hstore Hnot Hseen.
  rewrite Hstore. split_and!; [| | |done..].
  - intros j id [(_ & -> & _)|[_ Hj]]%list_lookup_insert_Some; [by destruct (Hnot id)|].
    eauto.
  - intros j1 j2 id Hne [(_ & -> & _)|[_ Hj1]]%list_lookup_insert_Some;
      [by destruct (Hnot id)|].
    intros [(_ & -> & _)|[_ Hj2]]%list_lookup_insert_Some; [by destruct (Hnot id)|].
    by destruct (Hdist j1 j2 id Hne Hj1).
  - intros j k seen [(_ & -> & _)|[_ Hj]]%list_lookup_insert_Some; eauto.
Qed.

(** The step that wins the conditional write. *)
Lemma claim_consistent (prefix debuggee : string) (w0 w w' : world)
    (allocators : list allocator) (i k : nat) (seen : Z) :
  ids_consistent prefix debuggee w0 (w, allocators) →
  allocators !! i = Some (Claiming k seen) →
  FirebaseRtdbService.counter_matches (store w !! counter_path debuggee) seen = true →
  store w' = <[counter_path debuggee := VInt (seen + 1)]> (store w) →
  ids_consistent prefix debuggee w0
    (w', <[i := Returned (make_id prefix (seen + 1))]> allocators).
Proof.
  unfold ids_consistent. simpl.
  intros (Hret & Hdist & Hclaim & Hbase & Hframe) Hi Hcas Hstore.
  set (base := counter_value (store w0 !! counter_path debuggee)) in *.
  assert (base ≤ seen)%Z as Hseen by eauto.
  assert (∀ j id, allocators !! j = Some (Returned id) →
            ∃ n, id = make_id prefix n ∧ (base < n ≤ seen)%Z) as Hold.
  { intros j id Hj. destruct (Hret j id Hj) as (n & m & -> & Hm & Hn).
    rewrite Hm in Hcas. simpl in Hcas. apply Z.eqb_eq in Hcas as ->. eauto. }
  rewrite Hstore, lookup_insert_eq. split_and!.
  - intros j id [(_ & [= <-] & _)|[_ Hj]]%list_lookup_insert_Some.
    + exists (seen + 1)%Z, (seen + 1)%Z. split_and!; [done..|lia|lia].
    + destruct (Hold j id Hj) as (n & -> & Hn).
      exists n, (seen + 1)%Z. split_and!; [done..|lia|lia].
  - intros j1 j2 id Hne [(<- & [= <-] & _)|[Hne1 Hj1]]%list_lookup_insert_Some.
    + rewrite list_lookup_insert_ne by done. intros Hj2.
      destruct (Hold j2 _ Hj2) as (n & Hid%make_id_inj & Hn). lia.
    + intros [(<- & [= <-] & _)|[_ Hj2]]%list_lookup_insert_Some.
      * destruct (Hold j1 _ Hj1) as (n & Hid%make_id_inj & Hn). lia.
      * by destruct (Hdist j1 j2 id Hne Hj1).
  - intros j k' seen' [(_ & [=] & _)|[_ Hj]]%list_lookup_insert_Some. eauto.
  - simpl. lia.
  - intros q Hq. rewrite lookup_insert_ne by done. by apply Hframe.
Qed.

Lemma race_step_consistent (prefix debuggee : string) (w0 : world)
    (s : world * list allocator) (who : nat) :
  ids_consistent prefix debuggee w0 s →
  ids_consistent prefix debuggee w0 (race_step prefix debuggee s who).
Proof.
  destruct s as [w allocators]. intros Hs. unfold race_step. simpl.
  destruct (allocators !! who) as [a|] eqn:Ha; [|done].
  destruct (allocator_step_cases prefix debuggee a w)
    as (a' & w' & -> & [(-> & -> & _)|[(Hstore & Hnot & Hseen)|
                                       (k & seen & -> & Hcas & Hstore & ->)]]).
  - by rewrite list_insert_id.
  - eapply update_consistent; [done..|].
    intros k seen ->%Hseen. apply Hs.
  - by eapply claim_consistent.
Qed.

Lemma race_consistent (prefix debuggee : string) (w0 : world) (schedule : list nat)
    (s : world * list allocator) :
  ids_consistent prefix debuggee w0 s →
  ids_consistent prefix debuggee w0 (foldl (race_step prefix debuggee) s schedule).
Proof.
  revert s. induction schedule as [|who schedule IH]; intros s Hs; simpl; [done|].
  by apply IH, race_step_consistent.
Qed.

Lemma counter_path_not_breakpoint (debuggee debuggee' id : string) :
  active_path debuggee' id ≠ counter_path debuggee ∧
  final_path debuggee' id ≠ counter_path debuggee.
Proof. split; intros H; by injection H. Qed.

(** C9.  Allocators racing on one debuggee follow the protocol of
    [get_new_breakpoint_id]: an allocator served alone, one store call at a
    time, ends exactly as [allocate] does.  However the store calls of [n]
    such allocators are interleaved on a shared store, and whichever of
    them find the store unreachable, two different allocators never return
    the same id; and when every breakpoint stored for the debuggee, active
    or final, carries an id the counter has issued, no id returned is the
    id of a stored breakpoint.  An allocator without an id has failed and
    holds none. *)
Theorem racing_allocators_get_distinct_ids (prefix debuggee : string) :
  (∀ attempts fuel w,
     (2 * attempts + 1 ≤ fuel)%nat →
     run_alone prefix debuggee fuel (Reading attempts) w =
     allocate prefix attempts debuggee w) ∧
  (∀ n schedule w i j id_i id_j,
     i ≠ j →
     (race prefix debuggee n schedule w).2 !! i = Some (Returned id_i) →
     (race prefix debuggee n schedule w).2 !! j = Some (Returned id_j) →
     id_i ≠ id_j) ∧
  (∀ n schedule w i id,
     issued_by_counter prefix debuggee w →
     (race prefix debuggee n schedule w).2 !! i = Some (Returned id) →
     store (race prefix debuggee n schedule w).1 !! active_path debuggee id = None ∧
     store (race prefix debuggee n schedule w).1 !! final_path debuggee id = None).
Proof.
  split_and!.
  - intros attempts fuel w. apply run_alone_allocate.
  - intros n schedule w i j id_i id_j Hne Hi Hj ->.
    destruct (race_consistent prefix debuggee w schedule _
                (start_consistent prefix debuggee n w)) as (_ & Hdist & _).
    by destruct (Hdist i j id_j Hne Hi).
  - intros n schedule w i id Hissued Hi.
    destruct (race_consistent prefix debuggee w schedule _
                (start_consistent prefix debuggee n w)) as (Hret & _ & _ & _ & Hframe).
    fold (race prefix debuggee n schedule w) in Hret, Hframe.
    destruct (Hret i id Hi) as (m & c & -> & _ & Hm).
    destruct (counter_path_not_breakpoint debuggee debuggee (make_id prefix m))
      as [Hactive Hfinal].
    rewrite !Hframe by done.
    split; apply eq_None_not_Some; intros Hsome.
    + destruct (Hissued (make_id prefix m)) as (m' & ->%make_id_inj & Hm'); [by left|lia].
    + destruct (Hissued (make_id prefix m)) as (m' & ->%make_id_inj & Hm'); [by right|lia].
Qed.

(** *** The stores [set_snapshot] builds

    With the collaborators as the spec describes them, [set_snapshot]
    keeps every stored breakpoint of its debuggee under an id the counter
    has issued; this is what the racing allocators rely on. *)

Lemma final_path_not_active (debuggee id id' : string) :
  final_path debuggee id ≠ active_path debuggee id'.
Proof.
  unfold final_path, active_path.
  intros H%(inj (String.app "breakpoints/"))%(inj (String.app debuggee)).
  by injection H.
Qed.

Lemma active_path_inj (debuggee id id' : string) :
  active_path debuggee id = active_path debuggee id' → id = id'.
Proof.
  unfold active_path.
  intros H%(inj (String.app "breakpoints/"))%(inj (String.app debuggee)).
  by apply (inj (String.app "/active/")) in H.
Qed.

(** Run alone, the allocator either fails and leaves the store as it is, or
    returns the id after the counter it found and leaves the counter
    there. *)
Lemma allocate_run (prefix debuggee : string) (attempts : nat) (w : world) :
  ∃ r w', allocate prefix attempts debuggee w = (Ret r, w') ∧
    ((r = None ∧ store w' = store w) ∨
     (r = Some (make_id prefix (counter_value (store w !! counter_path debuggee) + 1)) ∧
      store w' =
        <[counter_path debuggee :=
            VInt (counter_value (store w !! counter_path debuggee) + 1)]> (store w))).
Proof.
  revert w. induction attempts as [|attempts IH]; intros w; simpl.
  - rewrite bind_run. simpl. eexists _, _. split; [done|]. by left.
  - destruct (get_run (counter_path debuggee) w) as (seen & w1 & Hget & Hs1 & Hseen).
    rewrite (bind_ret_run _ _ _ _ _ Hget).
    destruct (IH w1) as (r & w' & Hrec & Hres). rewrite Hs1 in Hres.
    destruct Hseen as [->| ->]; [by eauto|].
    destruct (set_if_run (counter_path debuggee)
                (counter_value (store w !! counter_path debuggee))
                (counter_value (store w !! counter_path debuggee) + 1) w1)
      as (won & w2 & Hcas & [(-> & _ & Hs2)|[Hwon Hs2]]);
      rewrite (bind_ret_run _ _ _ _ _ Hcas).
    + eexists _, _. split; [done|]. right. by rewrite Hs2, Hs1.
    + destruct (IH w2) as (r2 & w2' & Hrec2 & Hres2). rewrite Hs2, Hs1 in Hres2.
      destruct won as [[]|]; [done|by eauto..].
Qed.

Lemma issued_by_counter_claim (prefix debuggee : string) (w w' : world) :
  issued_by_counter prefix debuggee w →
  store w' =
    <[counter_path debuggee :=
        VInt (counter_value (store w !! counter_path debuggee) + 1)]> (store w) →
  issued_by_counter prefix debuggee w'.
Proof.
  intros Hw Hstore id. rewrite Hstore, lookup_insert_eq.
  destruct (counter_path_not_breakpoint debuggee debuggee id) as [Ha Hf].
  rewrite !lookup_insert_ne by done.
  intros (n & -> & Hn)%Hw. exists n. split; [done|]. simpl. lia.
Qed.

Lemma issued_by_counter_write (prefix debuggee : string) (w w' : world) (n : Z)
    (record : value) :
  issued_by_counter prefix debuggee w →
  (n ≤ counter_value (store w !! counter_path debuggee))%Z →
  store w' = <[active_path debuggee (make_id prefix n) := record]> (store w) →
  issued_by_counter prefix debuggee w'.
Proof.
  intros Hw Hn Hstore id. rewrite Hstore.
  destruct (counter_path_not_breakpoint debuggee debuggee (make_id prefix n)) as [Hc _].
  rewrite (lookup_insert_ne _ _ (counter_path debuggee)) by done.
  rewrite (lookup_insert_ne _ _ (final_path debuggee id))
    by (intros H; symmetry in H; by apply final_path_not_active in H).
  destruct (decide (active_path debuggee id = active_path debuggee (make_id prefix n)))
    as [->%active_path_inj|Hne]; [by eauto|].
  rewrite lookup_insert_ne by done. apply Hw.
Qed.

Lemma set_store (p : string) (data : value) (w : world) :
  ∃ bp w', FirebaseRtdbService.set p data w = (Ret bp, w') ∧
    (store w' = store w ∨
     store w' = <[p := resolve_server_values (server_time w) data]> (store w)).
Proof.
  unfold FirebaseRtdbService.set, FirebaseRtdbService.reachable,
    FirebaseRtdbService.commit, record_call.
  rewrite !bind_run; simpl.
  destruct (outages w) as [|[] rest]; simpl; eauto.
Qed.

Lemma validate_store (debuggee : string) (w : world) :
  store (CommandUtilsModel.validate_debuggee_id debuggee w).2 = store w.
Proof.
  unfold CommandUtilsModel.validate_debuggee_id.
  destruct (get_run (CommandUtilsModel.debuggee_path debuggee) w)
    as (found & w1 & Hget & Hstore & _).
  rewrite (bind_ret_run _ _ _ _ _ Hget). by destruct found as [[v|]|].
Qed.

(** [set_snapshot] keeps the stored breakpoints of its debuggee under ids
    the counter has issued, whatever its arguments and however it ends. *)
Lemma set_snapshot_keeps_issued_by_counter (args : Namespace)
    (cli_services : CliServices) (w : world) :
  issued_by_counter "b-" (debuggee_id args) w →
  issued_by_counter "b-" (debuggee_id args)
    (@cmd modelled_breakpoint_utils modelled_command_utils args cli_services w).2.
Proof.
  intros Hw.
  assert (∀ w1, store w1 = store w → issued_by_counter "b-" (debuggee_id args) w1)
    as Hsame.
  { intros w1 Hs id. rewrite !Hs. apply Hw. }
  pose proof (validate_store (debuggee_id args) w) as Hv.
  destruct (CommandUtilsModel.validate_debuggee_id (debuggee_id args) w)
    as [[[]|e] w1] eqn:Hvalid; simpl in Hv.
  - destruct (LocationParser.parse_and_validate_location (location args))
      as [loc|] eqn:Hloc.
    + destruct (allocate_run "b-" (debuggee_id args) MAX_ATTEMPTS w1)
        as (r & w2 & Halloc & Hres).
      rewrite (@cmd_after_allocation modelled_breakpoint_utils modelled_command_utils
                 args cli_services w w1 w2 loc r Hvalid Hloc Halloc).
      destruct Hres as [(-> & Hs2)|(-> & Hs2)].
      * apply Hsame. simpl. by rewrite Hs2.
      * assert (issued_by_counter "b-" (debuggee_id args) w2) as Hw2.
        { eapply issued_by_counter_claim; [by apply (Hsame w1)|done]. }
        rewrite bind_run.
        set (n := (counter_value (store w1 !! counter_path (debuggee_id args)) + 1)%Z)
          in *.
        set (data := VDict _).
        destruct (set_store (active_path (debuggee_id args) (make_id "b-" n)) data w2)
          as (bp & w3 & Hset & Hs3).
        rewrite Hset.
        assert (issued_by_counter "b-" (debuggee_id args) w3) as Hw3.
        { destruct Hs3 as [Hs3|Hs3].
          - intros id. rewrite !Hs3. apply Hw2.
          - eapply (issued_by_counter_write "b-" (debuggee_id args) w2 _ n); [done| |done].
            rewrite Hs2, lookup_insert_eq. simpl. lia. }
        intros id.
        assert (store (match normalize_breakpoint bp with
                       | Some bp0 =>
                           if bool_decide (format args = "json")
                              || bool_decide (format args = "pretty-json")
                           then print_json bp0 (bool_decide (format args = "pretty-json"))
                           else user_output_normal
                                  (CREATE_SUCCESS_MESSAGE (make_id "b-" n))
                       | None =>
                           user_output_error CREATE_FAILED_MESSAGE ;;
                           raise SilentlyExitError
                       end w3).2 = store w3) as ->.
        { destruct (normalize_breakpoint bp); [by destruct (_ || _)|done]. }
        apply Hw3.
    + rewrite (@cmd_invalid_location modelled_breakpoint_utils modelled_command_utils
                 args cli_services w Hloc).
      change (@validate_debuggee_id modelled_command_utils)
        with CommandUtilsModel.validate_debuggee_id.
      rewrite Hvalid. by apply Hsame.
  - unfold cmd.
    change (@validate_debuggee_id modelled_command_utils)
      with CommandUtilsModel.validate_debuggee_id.
    rewrite (bind_raise_run _ _ _ _ _ Hvalid). by apply Hsame.
Qed.

End AllocatorFacts.

(** ** The example invocations *)

Module ScenarioFacts.
Import Scenario.

#[local] Existing Instance modelled_breakpoint_utils.
#[local] Existing Instance modelled_command_utils.
#[local] Existing Instance modelled_environment.

(** [set_snapshot main.py:42 --condition "x>5"] when the allocator cannot
    reach the store: the allocator reports its failure, the command adds
    nothing, and the exit status is 0. *)
Lemma allocation_failure_exit_status_witness :
  run main_py_42 (fresh_world store_goes_down) = (0%Z, after_allocation store_goes_down) ∧
  output (after_allocation store_goes_down) = [OutError Allocator.ALLOCATION_FAILED_MESSAGE] ∧
  store (after_allocation store_goes_down) = fresh_store.
Proof.
  split; [|by vm_compute].
  apply (allocation_failure_exit_status main_py_42
           (fresh_world store_goes_down) (fresh_world store_goes_down)
           (after_validation store_goes_down) (after_allocation store_goes_down)
           services (mkLocation "main.py" 42)); by vm_compute.
Defined.

(** [set_snapshot nofile]: the parser's error, exit status 2, after the
    one store lookup of the debuggee validation. *)
Lemma cmd_invalid_location_witness :
  cmd (set_snapshot_args "nofile" None None) services (fresh_world []) =
  (Raise (SystemExit 2),
   World fresh_store 1700000000000 [] [CallGet "debuggees/d1"]
     [OutStderr LOCATION_ERROR_MSG_MODEL]).
Proof.
  rewrite (cmd_invalid_location (set_snapshot_args "nofile" None None) services
             (fresh_world [])); by vm_compute.
Defined.

(** C2, as stated, fails: the location "nofile" does not parse, and the
    invocation has called the store (to look the debuggee up) before the
    parser's error ends it. *)
Lemma invalid_location_calls_store :
  parse_and_validate_location "nofile" = None ∧
  calls (fresh_world []) = [] ∧
  calls (cmd (set_snapshot_args "nofile" None None) services (fresh_world [])).2
    = [CallGet "debuggees/d1"] ∧
  calls (cmd (set_snapshot_args "nofile" None None) services (fresh_world [])).2
    ≠ calls (fresh_world []).
Proof. split_and!; by vm_compute. Qed.

Lemma after_allocation_store :
  store (after_allocation []) = <["id_counters/d1" := VInt 1]> fresh_store.
Proof. by vm_compute. Qed.

Lemma after_allocation_no_breakpoint (q : string) :
  String.prefix "breakpoints/" q = true → store (after_allocation []) !! q = None.
Proof.
  intros Hq. rewrite after_allocation_store. unfold fresh_store.
  rewrite lookup_insert_ne by (by intros <-).
  apply lookup_singleton_ne. by intros <-.
Qed.

(** [set_snapshot main.py:42 --condition "x>5"] for a debuggee without
    breakpoints: one record, under the active namespace, with the id the
    allocator returned. *)
Lemma cmd_creates_one_active_breakpoint_witness :
  ∃ record : dict,
    store (cmd main_py_42 services (fresh_world [])).2 =
      <["breakpoints/d1/active/b-1" := VDict record]> (store (after_allocation [])) ∧
    record !! "location" = Some (VDict {[ "path" := VStr "main.py"; "line" := VInt 42 ]}) ∧
    record !! "condition" = Some (VStr "x>5") ∧
    record !! "expressions" = None ∧
    record !! "id" = Some (VStr "b-1") ∧
    (∀ q, String.prefix "breakpoints/" q = true →
       (is_Some (store (cmd main_py_42 services (fresh_world [])).2 !! q) ↔
        q = "breakpoints/d1/active/b-1")).
Proof.
  destruct (cmd_creates_one_active_breakpoint main_py_42 services
              (fresh_world []) (after_validation []) (after_allocation []) "b-1")
    as (record & Hstore & Hloc & Hcond & Hexpr & Hid & _ & _ & Honly);
    [by vm_compute..|].
  exists record. split_and!; [done..|].
  apply Honly, after_allocation_no_breakpoint.
Defined.

(** C3, as stated, fails: the record that
    [set_snapshot main.py:42 --condition "x>5"] hands to the store, and the
    record the store then holds, have no [expressions] field, so the field
    is not the empty sequence. *)
Lemma stored_record_has_no_expressions :
  ∃ data record : dict,
    calls (cmd main_py_42 services (fresh_world [])).2 =
      calls (after_allocation []) ++ [CallSet "breakpoints/d1/active/b-1" (VDict data)] ∧
    data !! "expressions" = None ∧
    store (cmd main_py_42 services (fresh_world [])).2 !! "breakpoints/d1/active/b-1"
      = Some (VDict record) ∧
    record !! "condition" = Some (VStr "x>5") ∧
    record !! "expressions" = None ∧
    record !! "expressions" ≠ Some (VList []).
Proof.
  exists (<["id" := VStr "b-1"]>
            (snapshot_data main_py_42 services (mkLocation "main.py" 42))).
  exists (resolve_fields 1700000000000
            (<["id" := VStr "b-1"]>
               (snapshot_data main_py_42 services (mkLocation "main.py" 42)))).
  split_and!; by vm_compute.
Qed.

Lemma cmd_writes_server_timestamp_witness :
  ∃ data : dict,
    calls (cmd main_py_42 services (fresh_world [])).2 =
      calls (after_allocation []) ++ [CallSet "breakpoints/d1/active/b-1" (VDict data)] ∧
    data !! "createTimeUnixMsec" = Some SERVER_TIMESTAMP ∧
    (∀ t, SERVER_TIMESTAMP ≠ VInt t) ∧
    (∀ k, data !! k = Some SERVER_TIMESTAMP → k = "createTimeUnixMsec").
Proof.
  apply (cmd_writes_server_timestamp main_py_42 services
           (fresh_world []) (after_validation []) (after_allocation [])
           (mkLocation "main.py" 42) "b-1"); by vm_compute.
Defined.

(** [set_snapshot main.py:42 --condition "" --expression x --expression y]:
    the empty condition is dropped, the expressions are kept in order. *)
Lemma cmd_optional_keys_witness :
  ∃ data : dict,
    calls (cmd (set_snapshot_args "main.py:42" (Some "") (Some ["x"; "y"]))
             services (fresh_world [])).2 =
      calls (after_allocation []) ++ [CallSet "breakpoints/d1/active/b-1" (VDict data)] ∧
    data !! "condition" = None ∧
    data !! "expressions" = Some (VList [VStr "x"; VStr "y"]).
Proof.
  destruct (cmd_optional_keys (set_snapshot_args "main.py:42" (Some "") (Some ["x"; "y"]))
              services (fresh_world []) (after_validation []) (after_allocation [])
              (mkLocation "main.py" 42) "b-1")
    as (data & Hcalls & Hcond & _ & _ & Hexprs & _); [by vm_compute..|].
  exists data. split_and!; [done| |exact (Hexprs ["x"; "y"] eq_refl ltac:(done))].
  destruct (data !! "condition") eqn:Hc; [|done].
  destruct (proj1 Hcond) as (s & [= <-] & Hs); [by eauto|done].
Defined.

(** A write that succeeds followed by a normalizer that rejects the record:
    the failure message and exit status 1. *)
Lemma normalization_failure_exit_status_witness :
  let data : dict :=
    <["id" := VStr "b-1"]> (snapshot_data main_py_42 services (mkLocation "main.py" 42)) in
  let w3 := (FirebaseRtdbService.set "breakpoints/d1/active/b-1" (VDict data)
               (after_allocation [])).2 in
  store w3 !! "breakpoints/d1/active/b-1" =
    Some (resolve_server_values 1700000000000 (VDict data)) ∧
  @run rejecting_breakpoint_utils modelled_command_utils modelled_environment
    main_py_42 (fresh_world []) =
  (1%Z, World (store w3) (server_time w3) (outages w3) (calls w3)
          [OutError CREATE_FAILED_MESSAGE]).
Proof.
  intros data w3. split; [by vm_compute|].
  apply (@normalization_failure_exit_status
           rejecting_breakpoint_utils modelled_command_utils modelled_environment
           main_py_42 (fresh_world []) (fresh_world [])
           (after_validation []) (after_allocation []) w3
           services (mkLocation "main.py" 42) "b-1"
           (Some (resolve_server_values 1700000000000 (VDict data))));
    by vm_compute.
Defined.

(** No subcommand: the message on stderr and status 1.  A [set_snapshot]
    that succeeds: status 0. *)
Lemma main_exit_status_witness :
  run no_subcommand (fresh_world []) =
    (1%Z, World fresh_store 1700000000000 [] [] [OutStderr MISSING_ARGUMENT_MESSAGE]) ∧
  run main_py_42 (fresh_world []) =
    (0%Z, (cmd main_py_42 services (fresh_world [])).2) ∧
  output (cmd main_py_42 services (fresh_world [])).2 =
    [OutNormal "Successfully created snapshot with id: b-1"].
Proof.
  split_and!.
  - by apply (proj1 (main_exit_status no_subcommand (fresh_world []))).
  - apply (proj2 (main_exit_status main_py_42 (fresh_world []))
             set_snapshot services (fresh_world [])); by vm_compute.
  - by vm_compute.
Defined.

(** A raw record with an id and an unresolved creation time. *)
Lemma normalize_breakpoint_idempotent_witness :
  ∃ c, Normalizer.normalize_breakpoint Normalizer.Active 1700000000000
         (Some {[ "id" := VStr "b1"; "createTimeUnixMsec" := SERVER_TIMESTAMP ]})
       = Normalizer.Canonical c ∧
       Normalizer.normalize_breakpoint Normalizer.Active 0 (Some c)
       = Normalizer.Canonical c.
Proof.
  apply NormalizerFacts.normalize_breakpoint_idempotent.
  exists "b1". by vm_compute.
Defined.

Lemma fresh_world_issued (faults : list bool) :
  Allocator.issued_by_counter "b-" "d1" (fresh_world faults).
Proof.
  intros id. unfold fresh_world, fresh_store. simpl.
  rewrite !lookup_singleton_ne by (intros H; by injection H).
  by intros [[? [=]]|[? [=]]].
Qed.

(** Two allocators racing for debuggee [d1] after a first
    [set_snapshot main.py:42 --condition "x>5"] has stored [b-1]: both read
    the counter at 1, allocator 0 wins [b-2], allocator 1 loses, reads
    again and wins [b-3]; neither gets the stored [b-1].  Served alone, an
    allocator ends as [get_new_breakpoint_id] does. *)
Lemma racing_allocators_get_distinct_ids_witness :
  let w := (cmd main_py_42 services (fresh_world [])).2 in
  store w !! active_path "d1" "b-1" ≠ None ∧
  (Allocator.race "b-" "d1" 2 two_racing w).2 =
    [Allocator.Returned "b-2"; Allocator.Returned "b-3"] ∧
  "b-2" ≠ "b-3" ∧
  store (Allocator.race "b-" "d1" 2 two_racing w).1 !! active_path "d1" "b-2" = None ∧
  store (Allocator.race "b-" "d1" 2 two_racing w).1 !! Allocator.final_path "d1" "b-3" = None ∧
  Allocator.run_alone "b-" "d1" 11 (Allocator.Reading Allocator.MAX_ATTEMPTS) w =
    Allocator.get_new_breakpoint_id "d1" w.
Proof.
  intros w.
  destruct (AllocatorFacts.racing_allocators_get_distinct_ids "b-" "d1")
    as (Halone & Hdistinct & Hfresh).
  assert (Allocator.issued_by_counter "b-" "d1" w) as Hissued.
  { apply (AllocatorFacts.set_snapshot_keeps_issued_by_counter main_py_42 services),
      fresh_world_issued. }
  split_and!.
  - by vm_compute.
  - by vm_compute.
  - apply (Hdistinct 2%nat two_racing w 0%nat 1%nat); [done|by vm_compute..].
  - apply (Hfresh 2%nat two_racing w 0%nat "b-2" Hissued). by vm_compute.
  - apply (Hfresh 2%nat two_racing w 1%nat "b-3" Hissued). by vm_compute.
  - apply Halone. by vm_compute.
Defined.

End ScenarioFacts.

(** ** More on [SetSnapshotCommand.cmd]: paths and messages *)

Lemma string_app_assoc (s1 s2 s3 : string) :
  (s1 +:+ s2) +:+ s3 = s1 +:+ (s2 +:+ s3).
Proof.
  induction s1 as [|c s1 IH]; [done|].
  change (String c ((s1 +:+ s2) +:+ s3) = String c (s1 +:+ s2 +:+ s3)).
  by rewrite IH.
Qed.

Lemma string_app_length (s1 s2 : string) :
  String.length (s1 +:+ s2) = (String.length s1 + String.length s2)%nat.
Proof.
  induction s1 as [|c s1 IH]; [done|].
  change (S (String.length (s1 +:+ s2)) = S (String.length s1 + String.length s2)).
  by rewrite IH.
Qed.

Lemma string_app_inj_r (s1 s2 t : string) : s1 +:+ t = s2 +:+ t → s1 = s2.
Proof.
  revert s2. induction s1 as [|c1 s1 IH]; intros [|c2 s2] H.
  - done.
  - apply (f_equal String.length) in H.
    change (String.length t = S (String.length (s2 +:+ t))) in H.
    rewrite string_app_length in H. lia.
  - apply (f_equal String.length) in H.
    change (S (String.length (s1 +:+ t)) = String.length t) in H.
    rewrite string_app_length in H. lia.
  - change (String c1 (s1 +:+ t) = String c2 (s2 +:+ t)) in H.
    injection H as -> H. by rewrite (IH s2 H).
Qed.

(** The path of line 123 keeps breakpoints apart: for one debuggee two
    ids give the same path only when they are the same id, and for one id
    two debuggees give the same path only when they are the same debuggee.
    The ids are pasted into the path as they are, so a debuggee id that
    itself contains [/active/] shares its paths with another debuggee. *)
Theorem active_path_distinct :
  (∀ debuggee id1 id2,
     active_path debuggee id1 = active_path debuggee id2 ↔ id1 = id2) ∧
  (∀ debuggee1 debuggee2 id,
     active_path debuggee1 id = active_path debuggee2 id ↔ debuggee1 = debuggee2) ∧
  (∀ debuggee x id,
     active_path (debuggee +:+ "/active/" +:+ x) id =
     active_path debuggee (x +:+ "/active/" +:+ id)).
Proof.
  unfold active_path. split_and!.
  - intros d id1 id2. split; [|by intros ->].
    intros H%(inj (String.app "breakpoints/"))%(inj (String.app d)).
    by apply (inj (String.app "/active/")) in H.
  - intros d1 d2 id. split; [|by intros ->].
    intros H%(inj (String.app "breakpoints/")). by apply string_app_inj_r in H.
  - intros d x id. f_equal. rewrite string_app_assoc. by f_equal.
Qed.

(** The success message of lines 59-60 names the breakpoint: two messages
    are equal only for equal ids, so the id can be read back from it. *)
Theorem CREATE_SUCCESS_MESSAGE_names_id (id1 id2 : string) :
  CREATE_SUCCESS_MESSAGE id1 = CREATE_SUCCESS_MESSAGE id2 ↔ id1 = id2.
Proof.
  split; [|by intros ->]. unfold CREATE_SUCCESS_MESSAGE.
  by intros H%(inj (String.app "Successfully created snapshot with id: ")).
Qed.

(** ** More on [SetSnapshotCommand.cmd]: what reaches the store *)

Lemma set_unreachable (p : string) (data : value) (w : world) :
  head (outages w) = Some true →
  FirebaseRtdbService.set p data w =
    (Ret None,
     World (store w) (server_time w) (tail (outages w))
       (calls w ++ [CallSet p data]) (output w)).
Proof.
  intros Hdown.
  unfold FirebaseRtdbService.set, FirebaseRtdbService.reachable,
    FirebaseRtdbService.commit, record_call.
  rewrite !bind_run; simpl.
  destruct (outages w) as [|[] rest]; simpl in *; done.
Qed.

Section CommandStore.
Context `{!BreakpointUtils, !CommandUtils}.
Variables (args : Namespace) (cli_services : CliServices).

(** The server only touches the creation time of the record the command
    writes: no argument of the user can stand for a server value. *)
Lemma written_record_resolved (t : Z) (loc : SourceLocation) (breakpoint_id : string) :
  resolve_fields t (<["id" := VStr breakpoint_id]> (snapshot_data args cli_services loc)) =
  <["createTimeUnixMsec" := VInt t]>
    (<["id" := VStr breakpoint_id]> (snapshot_data args cli_services loc)).
Proof.
  apply map_eq. intros k. rewrite NormalizerFacts.resolve_fields_lookup.
  destruct (decide (k = "createTimeUnixMsec")) as [->|Hk].
  - rewrite lookup_insert_eq, lookup_insert_ne by done.
    by rewrite snapshot_data_create_time.
  - rewrite (lookup_insert_ne _ "createTimeUnixMsec") by done.
    destruct (decide (k = "id")) as [->|Hid].
    + by rewrite lookup_insert_eq.
    + rewrite lookup_insert_ne by done.
      destruct (snapshot_data args cli_services loc !! k) as [v|] eqn:Hv; [|done].
      simpl. f_equal.
      apply snapshot_data_lookup in Hv
        as [[_ ->]|[[_ ->]|[[-> _]|[[_ [s ->]]|[_ [es ->]]]]]]; done.
Qed.

(** The command calls the store itself at most once, with [set], and only
    after the debuggee was validated, the location parsed and an id
    allocated.  In every other outcome the log of store calls is the one
    its collaborators left. *)
Theorem cmd_store_calls (w0 : world) :
  calls (cmd args cli_services w0).2 =
  match validate_debuggee_id (debuggee_id args) w0 with
  | (Raise _, w1) => calls w1
  | (Ret _, w1) =>
      match parse_and_validate_location (location args) with
      | None => calls w1
      | Some loc =>
          match get_new_breakpoint_id (debuggee_id args) w1 with
          | (Ret (Some breakpoint_id), w2) =>
              calls w2 ++
                [CallSet (active_path (debuggee_id args) breakpoint_id)
                   (VDict (<["id" := VStr breakpoint_id]>
                             (snapshot_data args cli_services loc)))]
          | (_, w2) => calls w2
          end
      end
  end.
Proof.
  destruct (validate_debuggee_id (debuggee_id args) w0) as [[[]|e] w1] eqn:Hvalid.
  - destruct (parse_and_validate_location (location args)) as [loc|] eqn:Hloc.
    + destruct (get_new_breakpoint_id (debuggee_id args) w1) as [[[bid|]|e] w2] eqn:Halloc.
      * by eapply cmd_write_call.
      * by rewrite (cmd_after_allocation _ _ _ _ _ _ _ Hvalid Hloc Halloc).
      * unfold cmd. rewrite (bind_ret_run _ _ _ _ _ Hvalid), Hloc.
        by rewrite (bind_raise_run _ _ _ _ _ Halloc).
    + by rewrite cmd_invalid_location, Hvalid.
  - unfold cmd. by rewrite (bind_raise_run _ _ _ _ _ Hvalid).
Qed.

(** The command changes the store at one path at most, the new
    breakpoint's: when an id was allocated and the store answers the write,
    that path holds the written record with [createTimeUnixMsec] set to the
    store's clock and every other field as written; when the store does
    not answer, and in every other outcome, the store is as the
    collaborators left it. *)
Theorem cmd_store_contents (w0 : world) :
  store (cmd args cli_services w0).2 =
  match validate_debuggee_id (debuggee_id args) w0 with
  | (Raise _, w1) => store w1
  | (Ret _, w1) =>
      match parse_and_validate_location (location args) with
      | None => store w1
      | Some loc =>
          match get_new_breakpoint_id (debuggee_id args) w1 with
          | (Ret (Some breakpoint_id), w2) =>
              if decide (head (outages w2) = Some true) then store w2
              else
                <[active_path (debuggee_id args) breakpoint_id :=
                    VDict (<["createTimeUnixMsec" := VInt (server_time w2)]>
                             (<["id" := VStr breakpoint_id]>
                                (snapshot_data args cli_services loc)))]> (store w2)
          | (_, w2) => store w2
          end
      end
  end.
Proof.
  destruct (validate_debuggee_id (debuggee_id args) w0) as [[[]|e] w1] eqn:Hvalid.
  - destruct (parse_and_validate_location (location args)) as [loc|] eqn:Hloc.
    + destruct (get_new_breakpoint_id (debuggee_id args) w1) as [[[bid|]|e] w2] eqn:Halloc.
      * rewrite (cmd_after_allocation _ _ _ _ _ _ _ Hvalid Hloc Halloc), bind_run.
        case_decide as Hup.
        -- rewrite (set_unreachable _ _ _ Hup).
           destruct (normalize_breakpoint None); [by destruct (_ || _)|done].
        -- rewrite (set_reachable _ _ _ Hup). simpl.
           rewrite written_record_resolved.
           destruct (normalize_breakpoint _); [by destruct (_ || _)|done].
      * by rewrite (cmd_after_allocation _ _ _ _ _ _ _ Hvalid Hloc Halloc).
      * unfold cmd. rewrite (bind_ret_run _ _ _ _ _ Hvalid), Hloc.
        by rewrite (bind_raise_run _ _ _ _ _ Halloc).
    + by rewrite cmd_invalid_location, Hvalid.
  - unfold cmd. by rewrite (bind_raise_run _ _ _ _ _ Hvalid).
Qed.

(** The record of lines 103-122, whatever the arguments: it always has
    [location] (the parsed location), [userEmail] (the account of the
    services), [createTimeUnixMsec] and [id] (the allocated id, the last
    component of the path it is written to), and it has no key besides
    these four, [condition] and [expressions]. *)
Theorem cmd_written_record (w0 w1 w2 : world) (loc : SourceLocation)
    (breakpoint_id : string) :
  validate_debuggee_id (debuggee_id args) w0 = (Ret (), w1) →
  parse_and_validate_location (location args) = Some loc →
  get_new_breakpoint_id (debuggee_id args) w1 = (Ret (Some breakpoint_id), w2) →
  ∃ data : dict,
    calls (cmd args cli_services w0).2 =
      calls w2 ++
        [CallSet ("breakpoints/" +:+ debuggee_id args +:+ "/active/" +:+ breakpoint_id)
           (VDict data)] ∧
    data !! "id" = Some (VStr breakpoint_id) ∧
    data !! "location" =
      Some (VDict {[ "path" := VStr (path loc); "line" := VInt (line loc) ]}) ∧
    data !! "userEmail" = Some (VStr (account cli_services)) ∧
    is_Some (data !! "createTimeUnixMsec") ∧
    (∀ k, is_Some (data !! k) →
       k ∈ ["location"; "userEmail"; "createTimeUnixMsec"; "condition";
            "expressions"; "id"]).
Proof.
  intros Hvalid Hloc Halloc. eexists. split; [by eapply cmd_write_call|].
  rewrite lookup_insert_eq, !lookup_insert_ne by done.
  rewrite snapshot_data_location, snapshot_data_user_email, snapshot_data_create_time.
  split_and!; [done..|by eauto|].
  intros k [v [[<- _]|[_ Hk]]%lookup_insert_Some]; [set_solver|].
  apply snapshot_data_lookup in Hk
    as [[-> _]|[[-> _]|[[-> _]|[[-> _]|[-> _]]]]]; set_solver.
Qed.

End CommandStore.

(** ** More on the exit status of [set_snapshot] *)

Section SetSnapshotStatus.
Context `{!BreakpointUtils, !CommandUtils, !CliEnvironment}.
Variables (args : Namespace).

(** When the debuggee validation raises, the command stops there: the
    process ends with the status of that exception in the world the
    validation left, so the location is not even reported as invalid, no id
    is allocated and nothing is written. *)
Theorem validation_failure_exit_status (w w0 w1 : world)
    (cli_services : CliServices) (e : exn) :
  func args = Some set_snapshot →
  new_CliServices args w = (Ret cli_services, w0) →
  validate_debuggee_id (debuggee_id args) w0 = (Raise e, w1) →
  run args w = (exit_status (Raise e), w1).
Proof.
  intros Hfunc Hsvc Hvalid. rewrite (run_command _ _ _ _ _ Hfunc Hsvc). simpl.
  unfold cmd. by rewrite (bind_raise_run _ _ _ _ _ Hvalid).
Qed.

(** A location that does not parse ends the process with exit status 2,
    the status of the argument parser's [error], not with the status 1 of
    [SilentlyExitError]; the only thing added to the world the validation
    left is the location error on stderr. *)
Theorem invalid_location_exit_status (w w0 w1 : world) (cli_services : CliServices) :
  func args = Some set_snapshot →
  new_CliServices args w = (Ret cli_services, w0) →
  validate_debuggee_id (debuggee_id args) w0 = (Ret (), w1) →
  parse_and_validate_location (location args) = None →
  run args w =
  (2%Z, World (store w1) (server_time w1) (outages w1) (calls w1)
          (output w1 ++ [OutStderr LOCATION_ERROR_MSG])).
Proof.
  intros Hfunc Hsvc Hvalid Hloc. rewrite (run_command _ _ _ _ _ Hfunc Hsvc). simpl.
  by rewrite (cmd_invalid_location _ _ _ Hloc), Hvalid.
Qed.

(** When the written record is accepted by [normalize_breakpoint], the
    process ends with exit status 0 and the command shows exactly one thing
    after the write: with format [json] or [pretty-json] the normalized
    breakpoint as JSON (pretty-printed only for [pretty-json]), with any
    other format the success message naming the allocated id.  Showing the
    result changes neither the store nor the log of store calls. *)
Theorem success_exit_status (w w0 w1 w2 w3 : world) (cli_services : CliServices)
    (loc : SourceLocation) (breakpoint_id : string) (bp : option value)
    (normalized : value) :
  func args = Some set_snapshot →
  new_CliServices args w = (Ret cli_services, w0) →
  validate_debuggee_id (debuggee_id args) w0 = (Ret (), w1) →
  parse_and_validate_location (location args) = Some loc →
  get_new_breakpoint_id (debuggee_id args) w1 = (Ret (Some breakpoint_id), w2) →
  FirebaseRtdbService.set (active_path (debuggee_id args) breakpoint_id)
    (VDict (<["id" := VStr breakpoint_id]> (snapshot_data args cli_services loc))) w2
    = (Ret bp, w3) →
  normalize_breakpoint bp = Some normalized →
  ∃ shown : out_event,
    run args w =
      (0%Z, World (store w3) (server_time w3) (outages w3) (calls w3)
              (output w3 ++ [shown])) ∧
    (format args = "json" → shown = OutJson normalized false) ∧
    (format args = "pretty-json" → shown = OutJson normalized true) ∧
    (format args ≠ "json" → format args ≠ "pretty-json" →
     shown = OutNormal ("Successfully created snapshot with id: " +:+ breakpoint_id)).
Proof.
  intros Hfunc Hsvc Hvalid Hloc Halloc Hset Hnorm.
  rewrite (run_command _ _ _ _ _ Hfunc Hsvc). simpl.
  rewrite (cmd_after_allocation _ _ _ _ _ _ _ Hvalid Hloc Halloc).
  rewrite (bind_ret_run _ _ _ _ _ Hset), Hnorm.
  destruct (decide (format args = "json")) as [Hj|Hj];
    destruct (decide (format args = "pretty-json")) as [Hp|Hp].
  - rewrite Hj in Hp. done.
  - rewrite (bool_decide_eq_true_2 _ Hj), (bool_decide_eq_false_2 _ Hp). simpl.
    eexists. split; [done|]. by split_and!.
  - rewrite (bool_decide_eq_false_2 _ Hj), (bool_decide_eq_true_2 _ Hp). simpl.
    eexists. split; [done|]. by split_and!.
  - rewrite (bool_decide_eq_false_2 _ Hj), (bool_decide_eq_false_2 _ Hp). simpl.
    eexists. split; [done|]. by split_and!.
Qed.

(** From the parsed arguments on (line 58 of cli.py onwards; the argument
    parser's own exits at line 56 come before and are not covered): once
    [parse_args] has returned a namespace that selects [set_snapshot], and
    when the collaborators raise nothing but [SilentlyExitError], the rest
    of the run ends with exit status 0, 1 or 2, and with 2 only when
    [parse_and_validate_location] rejects the location. *)
Theorem set_snapshot_exit_statuses (w : world) :
  func args = Some set_snapshot →
  (∀ w' e w'', new_CliServices args w' = (Raise e, w'') → e = SilentlyExitError) →
  (∀ w' e w'', validate_debuggee_id (debuggee_id args) w' = (Raise e, w'') →
     e = SilentlyExitError) →
  (∀ w' e w'', get_new_breakpoint_id (debuggee_id args) w' = (Raise e, w'') →
     e = SilentlyExitError) →
  ((run args w).1 = 0 ∨ (run args w).1 = 1 ∨ (run args w).1 = 2)%Z ∧
  ((run args w).1 = 2%Z → parse_and_validate_location (location args) = None).
Proof.
  intros Hfunc Hsvc Hvalid Halloc.
  destruct (new_CliServices args w) as [[cli_services|e] w0] eqn:Hs.
  - rewrite (run_command _ _ _ _ _ Hfunc Hs). simpl.
    destruct (validate_debuggee_id (debuggee_id args) w0) as [[[]|e] w1] eqn:Hv.
    + destruct (parse_and_validate_location (location args)) as [loc|] eqn:Hloc.
      * destruct (get_new_breakpoint_id (debuggee_id args) w1)
          as [[allocated|e] w2] eqn:Ha.
        -- rewrite (cmd_after_allocation _ _ _ _ _ _ _ Hv Hloc Ha).
           destruct allocated as [bid|]; [|simpl; split; [auto|done]].
           rewrite bind_run.
           destruct (FirebaseRtdbService.set _ _ w2) as [[bp|e] w3] eqn:Hset.
           ++ destruct (normalize_breakpoint bp).
              ** destruct (_ || _); simpl; (split; [auto|done]).
              ** simpl. split; [auto|done].
           ++ destruct (set_never_raises
                          (active_path (debuggee_id args) bid)
                          (VDict (<["id" := VStr bid]>
                                    (snapshot_data args cli_services loc))) w2)
                as (bp & w3' & Hset').
              rewrite Hset' in Hset. done.
        -- unfold cmd. rewrite (bind_ret_run _ _ _ _ _ Hv), Hloc.
           rewrite (bind_raise_run _ _ _ _ _ Ha). simpl.
           rewrite (Halloc _ _ _ Ha). simpl. split; [auto|done].
      * rewrite (cmd_invalid_location _ _ _ Hloc), Hv. simpl. split; [auto|done].
    + unfold cmd. rewrite (bind_raise_run _ _ _ _ _ Hv). simpl.
      rewrite (Hvalid _ _ _ Hv). simpl. split; [auto|done].
  - unfold run, main. rewrite Hfunc. rewrite (bind_raise_run _ _ _ _ _ Hs).
    rewrite (Hsvc _ _ _ Hs). simpl. split; [auto|done].
Qed.

End SetSnapshotStatus.

(** ** More example invocations *)

Module ScenarioMore.
Import Scenario.

#[local] Existing Instance modelled_breakpoint_utils.
#[local] Existing Instance modelled_command_utils.
#[local] Existing Instance modelled_environment.

Lemma get_never_raises (p : string) (w : world) :
  ∃ r w', FirebaseRtdbService.get p w = (Ret r, w').
Proof.
  unfold FirebaseRtdbService.get, FirebaseRtdbService.reachable,
    FirebaseRtdbService.lookup_store, record_call.
  rewrite !bind_run; simpl.
  destruct (outages w) as [|[] rest]; simpl; eauto.
Qed.

Lemma set_if_never_raises (p : string) (expected new : Z) (w : world) :
  ∃ r w', FirebaseRtdbService.set_if_absent_or_matches p expected new w = (Ret r, w').
Proof.
  unfold FirebaseRtdbService.set_if_absent_or_matches, FirebaseRtdbService.reachable,
    FirebaseRtdbService.commit_if, record_call.
  rewrite !bind_run; simpl.
  destruct (outages w) as [|[] rest]; simpl; eauto;
    rewrite bind_run; simpl;
    destruct (FirebaseRtdbService.counter_matches (store w !! p) expected);
    simpl; eauto.
Qed.

Lemma allocate_never_raises (prefix : string) (attempts : nat) (debuggee : string)
    (w : world) :
  ∃ r w', Allocator.allocate prefix attempts debuggee w = (Ret r, w').
Proof.
  revert w. induction attempts as [|attempts IH]; intros w; simpl.
  - rewrite bind_run. simpl. eauto.
  - destruct (get_never_raises (Allocator.counter_path debuggee) w) as (seen & w1 & Hget).
    rewrite (bind_ret_run _ _ _ _ _ Hget).
    destruct seen as [v|]; [|apply IH].
    destruct (set_if_never_raises (Allocator.counter_path debuggee)
                (Allocator.counter_value v) (Allocator.counter_value v + 1) w1)
      as (won & w2 & Hcas).
    rewrite (bind_ret_run _ _ _ _ _ Hcas).
    destruct won as [[]|]; [by eauto|apply IH..].
Qed.

Lemma validate_raises_silently (debuggee : string) (w w' : world) (e : exn) :
  CommandUtilsModel.validate_debuggee_id debuggee w = (Raise e, w') →
  e = SilentlyExitError.
Proof.
  unfold CommandUtilsModel.validate_debuggee_id.
  destruct (get_never_raises (CommandUtilsModel.debuggee_path debuggee) w)
    as (found & w1 & Hget).
  rewrite (bind_ret_run _ _ _ _ _ Hget).
  destruct found as [[v|]|]; [done|by intros [= <- _]..].
Qed.

(** [set_snapshot main.py:42 --condition "x>5"]: the written record. *)
Lemma cmd_written_record_witness :
  ∃ data : dict,
    calls (cmd main_py_42 services (fresh_world [])).2 =
      calls (after_allocation []) ++ [CallSet "breakpoints/d1/active/b-1" (VDict data)] ∧
    data !! "id" = Some (VStr "b-1") ∧
    data !! "location" = Some (VDict {[ "path" := VStr "main.py"; "line" := VInt 42 ]}) ∧
    data !! "userEmail" = Some (VStr "dev@example.com") ∧
    is_Some (data !! "createTimeUnixMsec") ∧
    (∀ k, is_Some (data !! k) →
       k ∈ ["location"; "userEmail"; "createTimeUnixMsec"; "condition";
            "expressions"; "id"]).
Proof.
  apply (cmd_written_record main_py_42 services
           (fresh_world []) (after_validation []) (after_allocation [])
           (mkLocation "main.py" 42) "b-1"); by vm_compute.
Defined.

(** A debuggee the store does not know: exit status 1, no id allocated,
    nothing written. *)
Lemma validation_failure_exit_status_witness :
  run main_py_42 (World ∅ 1700000000000 [] [] []) =
  (1%Z, World ∅ 1700000000000 [] [CallGet "debuggees/d1"]
          [OutError "Debuggee not found: d1"]).
Proof.
  rewrite (validation_failure_exit_status main_py_42
             (World ∅ 1700000000000 [] [] []) (World ∅ 1700000000000 [] [] [])
             (World ∅ 1700000000000 [] [CallGet "debuggees/d1"]
                [OutError "Debuggee not found: d1"])
             services SilentlyExitError); by vm_compute.
Defined.

(** [set_snapshot nofile]: exit status 2. *)
Lemma invalid_location_exit_status_witness :
  run (set_snapshot_args "nofile" None None) (fresh_world []) =
  (2%Z, World fresh_store 1700000000000 [] [CallGet "debuggees/d1"]
          [OutStderr LOCATION_ERROR_MSG_MODEL]).
Proof.
  rewrite (invalid_location_exit_status (set_snapshot_args "nofile" None None)
             (fresh_world []) (fresh_world []) (after_validation []) services);
    by vm_compute.
Defined.

(** [set_snapshot main.py:42 --format pretty-json]: exit status 0 and the
    normalized breakpoint shown as pretty-printed JSON. *)
Lemma success_exit_status_witness :
  let args := {| func := Some set_snapshot; debuggee_id := "d1";
                 location := "main.py:42"; condition := None; expression := None;
                 format := "pretty-json" |} in
  (run args (fresh_world [])).1 = 0%Z ∧
  ∃ shown, output (run args (fresh_world [])).2 = [OutJson shown true].
Proof.
  intros args.
  destruct (success_exit_status args
              (fresh_world []) (fresh_world []) (after_validation [])
              (after_allocation [])
              (FirebaseRtdbService.set "breakpoints/d1/active/b-1"
                 (VDict (<["id" := VStr "b-1"]>
                           (snapshot_data args services (mkLocation "main.py" 42))))
                 (after_allocation [])).2
              services (mkLocation "main.py" 42) "b-1"
              (Some (resolve_server_values 1700000000000
                       (VDict (<["id" := VStr "b-1"]>
                                 (snapshot_data args services (mkLocation "main.py" 42))))))
              (default VNone
                 (Normalizer.normalize_written
                    (Some (resolve_server_values 1700000000000
                             (VDict (<["id" := VStr "b-1"]>
                                       (snapshot_data args services
                                          (mkLocation "main.py" 42))))))))
           ) as (shown & Hrun & _ & Hpretty & _); [by vm_compute..|].
  rewrite Hrun, (Hpretty eq_refl). split; [done|].
  eexists. simpl. reflexivity.
Defined.

(** The modelled collaborators raise nothing but [SilentlyExitError]. *)
Lemma set_snapshot_exit_statuses_witness :
  ((run main_py_42 (fresh_world [])).1 = 0 ∨
   (run main_py_42 (fresh_world [])).1 = 1 ∨
   (run main_py_42 (fresh_world [])).1 = 2)%Z ∧
  ((run main_py_42 (fresh_world [])).1 = 2%Z →
   parse_and_validate_location (location main_py_42) = None).
Proof.
  apply (set_snapshot_exit_statuses main_py_42 (fresh_world [])).
  - reflexivity.
  - intros w' e w'' H. discriminate H.
  - intros w' e w''. apply validate_raises_silently.
  - intros w' e w'' H.
    destruct (allocate_never_raises "b-" Allocator.MAX_ATTEMPTS "d1" w') as (r & w1 & Hr).
    change (Allocator.allocate "b-" Allocator.MAX_ATTEMPTS "d1" w' = (Raise e, w'')) in H.
    rewrite Hr in H. discriminate H.
Defined.

End ScenarioMore.
